(** * A shallow embedding of the dialogue preprocessing notebook

    Source: [src/data_pre_processing.ipynb].  The notebook is a linear
    sequence of cells: cleaning (cell 4), tokenization (cell 5), pairing
    (cell 6), padding (cell 7), train/validation split (cell 8) and JSON
    serialization (cell 9).  Cells 6 and 7 end with [print(pairs[0])];
    cell 9 as stored begins with a stray [']'] and does not parse.

    Python data is modelled as follows.
    - A [str] is a sequence of Unicode code points: [list N].
    - A Python [int] is a [Z].
    - A Python list is a Rocq list; indexing is stdpp's lookup, index
      assignment is stdpp's insert, guarded where Python would raise.
    - An exception is a value of [exn]; code that can raise returns
      [result].
    - What the interpreter and the libraries supply is modelled next to
      the notebook's own code: slicing, [str.split], [re.sub] on a
      character class, the [json] encoder and decoder, and
      scikit-learn's [train_test_split] with the random permutation as
      an argument.  [str.lower] is a parameter. *)

From Stdlib Require Import ZArith NArith String Ascii Lia.
From stdpp Require Import base numbers list.

Local Open Scope Z_scope.

(** ** Exceptions *)

Inductive exn : Type :=
| AttributeError (type_name attr : string)
| TypeError (msg : string)
| IndexError
| ValueError (msg : string)
| JSONDecodeError (msg : string)
| SyntaxError (msg : string)
| OutOfFuel.

(** [OutOfFuel] is not a Python exception: it marks a recursive model
    function that was started with too small a step budget. *)

Inductive result (A : Type) : Type :=
| Ok (a : A)
| Raise (e : exn).
Arguments Ok {A} a.
Arguments Raise {A} e.

Definition bind {A B} (m : result A) (k : A -> result B) : result B :=
  match m with
  | Ok a => k a
  | Raise e => Raise e
  end.

Notation "'let!' x ':=' m 'in' k" := (bind m (fun x => k))
  (at level 10, x name, m at level 100, k at level 200).

(** A [for] loop whose body may raise: the state is threaded through the
    items in order and the first exception ends the loop. *)
Fixpoint for_each {S I} (body : I -> S -> result S) (items : list I) (s : S)
  : result S :=
  match items with
  | [] => Ok s
  | i :: rest => let! s' := body i s in for_each body rest s'
  end.

(** ** Python strings *)

Abbreviation char := N (only parsing).
Abbreviation pystr := (list N) (only parsing).

(** An ASCII literal as a Python string. *)
Definition py (s : string) : pystr := map N_of_ascii (list_ascii_of_string s).

(** ** Python sequence primitives used by the notebook *)

Module Py.

(** [l[:stop]]: a negative [stop] counts from the end, and the bounds
    are clamped to the list. *)
Definition slice_to {A} (l : list A) (stop : Z) : list A :=
  if stop <? 0
  then take (Z.to_nat (Z.of_nat (length l) + stop)) l
  else take (Z.to_nat stop) l.

(** [l * n]: [n] copies of [l] one after the other, none when [n <= 0]. *)
Definition list_mul {A} (l : list A) (n : Z) : list A :=
  if n <=? 0 then [] else concat (replicate (Z.to_nat n) l).

(** [len(l)] *)
Definition len {A} (l : list A) : Z := Z.of_nat (length l).

(** [l[i]]: a negative index counts from the end; out of range raises. *)
Definition index {A} (l : list A) (i : Z) : result A :=
  let j := if i <? 0 then len l + i else i in
  if j <? 0 then Raise IndexError
  else match l !! Z.to_nat j with
       | Some x => Ok x
       | None => Raise IndexError
       end.

(** [range(n)] *)
Definition range (n : Z) : list Z := map Z.of_nat (seq 0 (Z.to_nat n)).

(** A slice bound brought into [0 .. len(l)]. *)
Definition clamp {A} (l : list A) (i : Z) : nat :=
  Z.to_nat (Z.min (if i <? 0 then Z.max (len l + i) 0 else i) (len l)).

(** [l[start:stop]] *)
Definition slice {A} (l : list A) (start stop : Z) : list A :=
  take (clamp l stop - clamp l start) (drop (clamp l start) l).

(** [[f(x) for x in l]] where [f] may raise. *)
Fixpoint comprehension {A B} (f : A -> result B) (l : list A) : result (list B) :=
  match l with
  | [] => Ok []
  | x :: rest =>
      let! y := f x in
      let! ys := comprehension f rest in
      Ok (y :: ys)
  end.

End Py.

(** ** Character classes

    Python 3 matches [\s] in a [str] pattern, and splits in [str.split()],
    with the same predicate: the code points for which [str.isspace] holds. *)

Definition in_range (lo hi c : char) : bool := (lo <=? c)%N && (c <=? hi)%N.

Definition isspace (c : char) : bool :=
  (in_range 0x09 0x0D c || in_range 0x1C 0x20 c
   || (c =? 0x85) || (c =? 0xA0) || (c =? 0x1680)
   || in_range 0x2000 0x200A c || in_range 0x2028 0x2029 c
   || (c =? 0x202F) || (c =? 0x205F) || (c =? 0x3000))%N.

Definition is_lower_az (c : char) : bool := in_range 97%N 122%N c.
Definition is_upper_AZ (c : char) : bool := in_range 65%N 90%N c.
Definition is_digit09 (c : char) : bool := in_range 48%N 57%N c.

(** The character class [[^a-zA-Z0-9\s]] of the cleaning pattern. *)
Definition cleaning_pattern (c : char) : bool :=
  negb (is_lower_az c || is_upper_AZ c || is_digit09 c || isspace c).

Module Re.

(** [re.sub(pattern, repl, text)] for a pattern that is one character
    class: the text is scanned left to right and every matching
    character is replaced by [repl]. *)
Fixpoint sub (pattern : char -> bool) (repl text : pystr) : pystr :=
  match text with
  | [] => []
  | c :: rest =>
      if pattern c then repl ++ sub pattern repl rest
      else c :: sub pattern repl rest
  end.

End Re.

Module Str.

(** [text.split()]: skip whitespace, collect the run of characters up
    to the next whitespace, emit it, repeat.  [word] is the run being
    collected. *)
Fixpoint split_from (word text : pystr) : list pystr :=
  match text with
  | [] => match word with [] => [] | _ => [word] end
  | c :: rest =>
      if isspace c
      then match word with
           | [] => split_from [] rest
           | _ => word :: split_from [] rest
           end
      else split_from (word ++ [c]) rest
  end.

Definition split (text : pystr) : list pystr := split_from [] text.

(** [str.lower] on the ASCII range, the part of the Unicode lower-case
    mapping the examples need. *)
Definition ascii_lower (text : pystr) : pystr :=
  map (fun c => if is_upper_AZ c then (c + 32)%N else c) text.

End Str.

(** ** Cells 4 and 5: cleaning and tokenization

    [str.lower] applies the interpreter's Unicode tables; it is a
    parameter of the development. *)

Section Text.
Variable lower : pystr -> pystr.

(** [def clean_text(text):
       text = text.lower()
       text = re.sub(r"[^a-zA-Z0-9\s]", "", text)
       return text] *)
Definition clean_text (text : pystr) : pystr :=
  let text := lower text in
  let text := Re.sub cleaning_pattern [] text in
  text.

End Text.

(** The class [[a-z0-9\s]] the specification names. *)
Definition lower_alnum_space (c : char) : bool :=
  is_lower_az c || is_digit09 c || isspace c.

(** [def tokenize(text): return text.split()] *)
Definition tokenize (text : pystr) : list pystr := Str.split text.

(** The tokenizer as the specification words it: cut the text at every
    whitespace character, then discard the empty pieces. *)
Fixpoint cut_at_whitespace (text : pystr) : list pystr :=
  match text with
  | [] => [[]]
  | c :: rest =>
      if isspace c then [] :: cut_at_whitespace rest
      else match cut_at_whitespace rest with
           | w :: ws => (c :: w) :: ws
           | [] => [[c]]
           end
  end.

Definition is_empty_str (s : pystr) : bool :=
  match s with [] => true | _ => false end.

Definition spec_tokenize (text : pystr) : list pystr :=
  filter (fun w => is_empty_str w = false) (cut_at_whitespace text).

(** ** Cell 7: padding and truncation *)

Abbreviation token := (list N) (only parsing).

Definition PAD : token := py "<PAD>".

(** [def pad_sequence(sequence, max_length):
       return sequence[:max_length] + ['<PAD>'] * (max_length - len(sequence))] *)
Definition pad_sequence (sequence : list token) (max_length : Z) : list token :=
  Py.slice_to sequence max_length ++ Py.list_mul [PAD] (max_length - Py.len sequence).

(** ** The corpus

    A conversation owns an ordered list of utterances, and every
    utterance belongs to one conversation, so the assignments to
    [utt.text] and [utt.tokens] in cells 4 and 5 are updates of the
    owning conversation's list that the later cells see.  An utterance
    has a mutable [text]; cell 5 adds the attribute [tokens], absent
    before. *)

Record Utterance : Type := mkUtterance {
  utt_id : pystr;
  text : pystr;
  tokens : option (list token)
}.

Record Conversation : Type := mkConversation {
  conv_id : pystr;
  utterances : list Utterance
}.

Abbreviation Corpus := (list Conversation) (only parsing).

Definition set_text (t : pystr) (utt : Utterance) : Utterance :=
  {| utt_id := utt_id utt; text := t; tokens := tokens utt |}.

Definition set_tokens (ts : list token) (utt : Utterance) : Utterance :=
  {| utt_id := utt_id utt; text := text utt; tokens := Some ts |}.

Definition update_utterances (f : Utterance -> Utterance) (corpus : Corpus)
  : Corpus :=
  map (fun convo =>
         {| conv_id := conv_id convo;
            utterances := map f (utterances convo) |}) corpus.

(** Cell 4:
    [for convo in corpus.iter_conversations():
         for utt in convo.iter_utterances():
             utt.text = clean_text(utt.text)] *)
Definition cell4_clean (lower : pystr -> pystr) (corpus : Corpus) : Corpus :=
  update_utterances (fun utt => set_text (clean_text lower (text utt)) utt) corpus.

(** Cell 5:
    [for convo in corpus.iter_conversations():
         for utt in convo.iter_utterances():
             utt.tokens = tokenize(utt.text)] *)
Definition cell5_tokenize (corpus : Corpus) : Corpus :=
  update_utterances (fun utt => set_tokens (tokenize (text utt)) utt) corpus.

(** ** Cell 6: conversation pairing

    The list [pairs] first holds pairs of texts; cell 7 overwrites each
    element with a pair of token lists. *)

Inductive entry : Type :=
| TextPair (input_text response_text : pystr)
| TokenPair (input_tokens response_tokens : list token).

(** [pairs.append((utterances[i].text, utterances[i+1].text))] *)
Definition append_pair (utterances : list Utterance) (i : Z)
  (pairs : list entry) : result (list entry) :=
  let! a := Py.index utterances i in
  let! b := Py.index utterances (i + 1) in
  Ok (pairs ++ [TextPair (text a) (text b)]).

(** [utterances = list(convo.iter_utterances())
     for i in range(len(utterances) - 1): ...] *)
Definition pair_conversation (convo : Conversation) (pairs : list entry)
  : result (list entry) :=
  let utterances := utterances convo in
  for_each (append_pair utterances) (Py.range (Py.len utterances - 1)) pairs.

(** [pairs = []
     for convo in corpus.iter_conversations(): ...] *)
Definition cell6_pairs (corpus : Corpus) : result (list entry) :=
  for_each pair_conversation corpus [].

(** ** Cell 7: the padding loop

    [for i, (input_text, response_text) in enumerate(pairs):
         input_tokens = tokenize(input_text)
         response_tokens = tokenize(response_text)
         pairs[i] = (pad_sequence(input_tokens, max_length),
                     pad_sequence(response_tokens, max_length))]

    [tokenize] calls [.split()] on its argument, which a list lacks. *)
Definition pad_pair (max_length : Z) (i : nat) (e : entry) (pairs : list entry)
  : result (list entry) :=
  match e with
  | TextPair input_text response_text =>
      let input_tokens := tokenize input_text in
      let response_tokens := tokenize response_text in
      Ok (<[i := TokenPair (pad_sequence input_tokens max_length)
                           (pad_sequence response_tokens max_length)]> pairs)
  | TokenPair _ _ => Raise (AttributeError "list" "split")
  end.

(** The list iterator reads [pairs[i]] from the live list at each step and
    stops when [i] is out of range.  The body keeps the length, so
    [length pairs] steps exhaust it. *)
Fixpoint pad_loop (max_length : Z) (fuel i : nat) (pairs : list entry)
  : result (list entry) :=
  match fuel with
  | O => Ok pairs
  | S fuel' =>
      match pairs !! i with
      | None => Ok pairs
      | Some e =>
          let! pairs' := pad_pair max_length i e pairs in
          pad_loop max_length fuel' (S i) pairs'
      end
  end.

Definition cell7_pad (max_length : Z) (pairs : list entry) : result (list entry) :=
  pad_loop max_length (length pairs) 0 pairs.

(** The loops of cells 4 to 7 in sequence, without the
    [print(pairs[0])] that ends cells 6 and 7; the cells with it are
    [cell6_stored] and [cell7_stored] below. *)
Definition padded_pairs (lower : pystr -> pystr) (max_length : Z)
  (corpus : Corpus) : result (list entry) :=
  let corpus := cell4_clean lower corpus in
  let corpus := cell5_tokenize corpus in
  let! pairs := cell6_pairs corpus in
  cell7_pad max_length pairs.

(** [print(pairs[0])], the last statement of cells 6 and 7: the first
    element is looked up, which raises [IndexError] on an empty list,
    and shown.  Nothing is assigned. *)
Definition print_first (pairs : list entry) : result entry :=
  Py.index pairs 0.

(** Cell 6 as stored: the pairing loops, then [print(pairs[0])]. *)
Definition cell6_stored (corpus : Corpus) : result (list entry) :=
  let! pairs := cell6_pairs corpus in
  let! shown := print_first pairs in
  Ok pairs.

(** Cell 7 as stored: the padding loop, then [print(pairs[0])]. *)
Definition cell7_stored (max_length : Z) (pairs : list entry)
  : result (list entry) :=
  let! pairs := cell7_pad max_length pairs in
  let! shown := print_first pairs in
  Ok pairs.

(** Cells 4 to 7 as stored, run in order; the first exception ends the
    run. *)
Definition cells_4_to_7 (lower : pystr -> pystr) (max_length : Z)
  (corpus : Corpus) : result (list entry) :=
  let corpus := cell4_clean lower corpus in
  let corpus := cell5_tokenize corpus in
  let! pairs := cell6_stored corpus in
  cell7_stored max_length pairs.

(** The variant the specification recommends: pair the token lists that
    cell 5 attached to the utterances and pad them, without tokenizing
    again.  Reading [utt.tokens] before cell 5 has run raises. *)
Definition get_tokens (utt : Utterance) : result (list token) :=
  match tokens utt with
  | Some ts => Ok ts
  | None => Raise (AttributeError "Utterance" "tokens")
  end.

Definition append_cached_pair (max_length : Z) (utterances : list Utterance)
  (i : Z) (pairs : list entry) : result (list entry) :=
  let! a := Py.index utterances i in
  let! b := Py.index utterances (i + 1) in
  let! ta := get_tokens a in
  let! tb := get_tokens b in
  Ok (pairs ++ [TokenPair (pad_sequence ta max_length)
                          (pad_sequence tb max_length)]).

Definition cached_padded_pairs (lower : pystr -> pystr) (max_length : Z)
  (corpus : Corpus) : result (list entry) :=
  let corpus := cell4_clean lower corpus in
  let corpus := cell5_tokenize corpus in
  for_each (fun convo pairs =>
              let utterances := utterances convo in
              for_each (append_cached_pair max_length utterances)
                       (Py.range (Py.len utterances - 1)) pairs)
           corpus [].

(** ** Cell 9: JSON

    [json.dump(pairs, f)] writes the text the encoder of the standard
    library produces with its default settings ([ensure_ascii=True],
    separators [", "]).  Lists and tuples are both written as arrays, so
    what is written is a nesting of arrays of strings. *)

Module Json.

#[warnings="-register-all"]
Inductive value : Type :=
| Str (s : pystr)
| Arr (items : list value).

(** *** Encoder *)

Definition hex_digit (d : N) : char :=
  (if d <? 10 then 48 + d else 87 + d)%N.

(** ['{0:04x}'.format(n)] for [n < 0x10000] *)
Definition hex4 (n : N) : pystr :=
  [hex_digit (n / 4096 mod 16); hex_digit (n / 256 mod 16);
   hex_digit (n / 16 mod 16); hex_digit (n mod 16)]%N.

(** The replacement [encode_basestring_ascii] makes for one character:
    the short escapes, the character itself in [' '..'~'], and
    [\uXXXX] (a surrogate pair from [0x10000] on) otherwise. *)
Definition escape_char (c : char) : pystr :=
  (if c =? 34 then [92; 34]
   else if c =? 92 then [92; 92]
   else if c =? 8 then [92; 98]
   else if c =? 12 then [92; 102]
   else if c =? 10 then [92; 110]
   else if c =? 13 then [92; 114]
   else if c =? 9 then [92; 116]
   else if in_range 32 126 c then [c]
   else if c <? 0x10000 then 92 :: 117 :: hex4 c
   else
     let n := c - 0x10000 in
     let s1 := N.lor 0xd800 (N.land (N.shiftr n 10) 0x3ff) in
     let s2 := N.lor 0xdc00 (N.land n 0x3ff) in
     (92 :: 117 :: hex4 s1) ++ (92 :: 117 :: hex4 s2))%N.

Definition encode_basestring_ascii (s : pystr) : pystr :=
  34%N :: flat_map escape_char s ++ [34%N].

Fixpoint encode (v : value) : pystr :=
  match v with
  | Str s => encode_basestring_ascii s
  | Arr items =>
      match items with
      | [] => py "[]"
      | x :: xs =>
          91%N :: encode x
            ++ flat_map (fun y => 44%N :: 32%N :: encode y) xs ++ [93%N]
      end
  end.

(** *** Decoder

    The decoder of the standard library on the fragment the encoder
    above produces: strings and arrays.  Objects, numbers and the three
    literals are not modelled; exception messages are abridged. *)

Definition is_ws (c : char) : bool :=
  ((c =? 32) || (c =? 9) || (c =? 10) || (c =? 13))%N.

Fixpoint skip_ws (s : pystr) : pystr :=
  match s with
  | c :: rest => if is_ws c then skip_ws rest else s
  | [] => []
  end.

Definition hex_value (c : char) : option N :=
  (if in_range 48 57 c then Some (c - 48)
   else if in_range 97 102 c then Some (c - 87)
   else if in_range 65 70 c then Some (c - 55)
   else None)%N.

(** [_decode_uXXXX]: the four hexadecimal digits at the head of [s]. *)
Definition decode_uXXXX (s : pystr) : result N :=
  match s with
  | h1 :: h2 :: h3 :: h4 :: _ =>
      match hex_value h1, hex_value h2, hex_value h3, hex_value h4 with
      | Some d1, Some d2, Some d3, Some d4 =>
          Ok (((d1 * 16 + d2) * 16 + d3) * 16 + d4)%N
      | _, _, _, _ => Raise (JSONDecodeError "Invalid \uXXXX escape")
      end
  | _ => Raise (JSONDecodeError "Invalid \uXXXX escape")
  end.

(** The table [BACKSLASH] of the decoder. *)
Definition BACKSLASH (esc : char) : option char :=
  (if esc =? 34 then Some 34
   else if esc =? 92 then Some 92
   else if esc =? 47 then Some 47
   else if esc =? 98 then Some 8
   else if esc =? 102 then Some 12
   else if esc =? 110 then Some 10
   else if esc =? 114 then Some 13
   else if esc =? 116 then Some 9
   else None)%N.

Definition is_high_surrogate (n : N) : bool := in_range 0xd800%N 0xdbff%N n.
Definition is_low_surrogate (n : N) : bool := in_range 0xdc00%N 0xdfff%N n.

(** [s[end:end + 2] == '\u'] *)
Definition next_is_backslash_u (s : pystr) : bool :=
  match s with
  | c1 :: c2 :: _ => ((c1 =? 92) && (c2 =? 117))%N
  | _ => false
  end.

(** [if 0xd800 <= uni <= 0xdbff and s[end:end + 2] == '\u': ...]: the
    code point of the pair when a low surrogate escape follows. *)
Definition surrogate_pair (uni : N) (rest : pystr) : result (option N) :=
  if is_high_surrogate uni && next_is_backslash_u rest then
    let! uni2 := decode_uXXXX (drop 2 rest) in
    if is_low_surrogate uni2
    then Ok (Some (0x10000 + N.lor (N.shiftl (uni - 0xd800) 10)
                                   (uni2 - 0xdc00))%N)
    else Ok None
  else Ok None.

(** [py_scanstring] in strict mode, started after the opening quote:
    the decoded string and the text after the closing quote. *)
Fixpoint scanstring (fuel : nat) (s : pystr) : result (pystr * pystr) :=
  match fuel with
  | O => Raise OutOfFuel
  | S fuel =>
      match s with
      | [] => Raise (JSONDecodeError "Unterminated string starting at")
      | c :: rest =>
          if (c =? 34)%N then Ok ([], rest)
          else if (c =? 92)%N then
            match rest with
            | [] => Raise (JSONDecodeError "Unterminated string starting at")
            | esc :: rest =>
                if (esc =? 117)%N then
                  let! uni := decode_uXXXX rest in
                  let rest := drop 4 rest in
                  let! paired := surrogate_pair uni rest in
                  match paired with
                  | Some uni =>
                      let! tail := scanstring fuel (drop 6 rest) in
                      Ok (uni :: tail.1, tail.2)
                  | None =>
                      let! tail := scanstring fuel rest in
                      Ok (uni :: tail.1, tail.2)
                  end
                else
                  match BACKSLASH esc with
                  | Some char =>
                      let! tail := scanstring fuel rest in
                      Ok (char :: tail.1, tail.2)
                  | None => Raise (JSONDecodeError "Invalid \escape")
                  end
            end
          else if (c <? 32)%N then
            Raise (JSONDecodeError "Invalid control character at")
          else
            let! tail := scanstring fuel rest in
            Ok (c :: tail.1, tail.2)
      end
  end.

(** [s[end:end + 1] == c] *)
Definition next_is (c : char) (s : pystr) : bool :=
  match s with
  | c' :: _ => (c' =? c)%N
  | [] => false
  end.

(** [scan_once] and [JSONArray]: a value at the head of [s], and the
    items of an array after its opening bracket. *)
Fixpoint scan_once (fuel : nat) (s : pystr) : result (value * pystr) :=
  match fuel with
  | O => Raise OutOfFuel
  | S fuel =>
      match s with
      | [] => Raise (JSONDecodeError "Expecting value")
      | c :: rest =>
          if (c =? 34)%N then
            let! str := scanstring (S (length rest)) rest in
            Ok (Str str.1, str.2)
          else if (c =? 91)%N then
            let rest := skip_ws rest in
            if next_is 93 rest then Ok (Arr [], drop 1 rest)
            else
              let! items := parse_items fuel rest in
              Ok (Arr items.1, items.2)
          else Raise (JSONDecodeError "Expecting value")
      end
  end
with parse_items (fuel : nat) (s : pystr) : result (list value * pystr) :=
  match fuel with
  | O => Raise OutOfFuel
  | S fuel =>
      let! item := scan_once fuel s in
      let rest := skip_ws item.2 in
      if next_is 93 rest then Ok ([item.1], drop 1 rest)
      else if next_is 44 rest then
        let! items := parse_items fuel (skip_ws (drop 1 rest)) in
        Ok (item.1 :: items.1, items.2)
      else Raise (JSONDecodeError "Expecting ',' delimiter")
  end.

(** The step budget that decoding what [encode v] wrote needs. *)
Fixpoint size (v : value) : nat :=
  match v with
  | Str _ => 1
  | Arr items =>
      S ((fix sizes (l : list value) : nat :=
            match l with
            | [] => O
            | x :: l => (S (size x) + sizes l)%nat
            end) items)
  end.

Definition sizes (l : list value) : nat :=
  (fix sizes (l : list value) : nat :=
     match l with
     | [] => O
     | x :: l => (S (size x) + sizes l)%nat
     end) l.

(** Modelled from the spec: reading the file back, which the notebook
    never does.  The deserializer of the reference format is taken to be
    [json.load] of the standard library, that is [JSONDecoder.decode] on
    the text of the file. *)
Definition loads (s : pystr) : result value :=
  let! obj := scan_once (2 * length s + 2) (skip_ws s) in
  match skip_ws obj.2 with
  | [] => Ok obj.1
  | _ => Raise (JSONDecodeError "Extra data")
  end.

End Json.

(** What the encoder sees of [pairs]: a tuple is an array of its two
    components. *)
Definition json_of_entry (e : entry) : Json.value :=
  match e with
  | TextPair a b => Json.Arr [Json.Str a; Json.Str b]
  | TokenPair a b =>
      Json.Arr [Json.Arr (map Json.Str a); Json.Arr (map Json.Str b)]
  end.

Definition json_of_pairs (pairs : list entry) : Json.value :=
  Json.Arr (map json_of_entry pairs).

(** The text [json.dump(pairs, f)] writes to [f]. *)
Definition json_dump (pairs : list entry) : pystr :=
  Json.encode (json_of_pairs pairs).

(** A code point that is a Unicode scalar value: below [0x110000] and
    not a surrogate. *)
Definition unicode_scalar (c : char) : bool :=
  ((c <? 0xd800) || ((0xe000 <=? c) && (c <? 0x110000)))%N.

Definition entry_strings (e : entry) : list pystr :=
  match e with
  | TextPair a b => [a; b]
  | TokenPair a b => a ++ b
  end.

(** ** Cell 8: train/validation split

    [train_test_split] is scikit-learn's (1.5.0 in the run the notebook
    records).  With [test_size=0.2] and the other arguments left at
    their defaults it validates the sizes, draws a random permutation of
    the indices, takes the first [n_test] of them for the test part and
    the following [n_train] for the training part.  The permutation is
    the random draw: it is an argument of the model.  The fraction [0.2]
    is kept as [1/5]; for every list length below [2^52] the
    floating-point [ceil(0.2 * n_samples)] is the integer computed here.
    Exception messages are abridged. *)

Module Sklearn.

(** [ceil(p / q * n)] for a fraction [p / q] *)
Definition ceil_fraction (test_size : Z * Z) (n : Z) : Z :=
  - ((- (test_size.1 * n)) / test_size.2).

(** [_validate_shuffle_split(n_samples, test_size, train_size=None)] for
    a fractional [test_size] *)
Definition validate_shuffle_split (n_samples : Z) (test_size : Z * Z)
  : result (Z * Z) :=
  if (test_size.1 <=? 0) || (test_size.2 <=? test_size.1)
  then Raise (ValueError "test_size should be in the (0, 1) range")
  else
    let n_test := ceil_fraction test_size n_samples in
    let n_train := n_samples - n_test in
    if n_train =? 0
    then Raise (ValueError "the resulting train set will be empty")
    else Ok (n_train, n_test).

(** [_safe_indexing(X, indices)] on a list: [[X[idx] for idx in indices]] *)
Definition safe_indexing {A} (X : list A) (indices : list Z) : result (list A) :=
  Py.comprehension (Py.index X) indices.

(** [train_test_split(arrays, test_size=test_size)]; [permutation] is
    what [rng.permutation(n_samples)] returned. *)
Definition train_test_split {A} (permutation : list Z) (arrays : list A)
  (test_size : Z * Z) : result (list A * list A) :=
  let n_samples := Py.len arrays in
  let! sizes := validate_shuffle_split n_samples test_size in
  let n_train := sizes.1 in
  let n_test := sizes.2 in
  let ind_test := Py.slice_to permutation n_test in
  let ind_train := Py.slice permutation n_test (n_test + n_train) in
  let! train := safe_indexing arrays ind_train in
  let! test := safe_indexing arrays ind_test in
  Ok (train, test).

End Sklearn.

(** ** The notebook's variables after cell 7

    [None] stands for a variable not yet assigned, or for a file not yet
    written. *)

Record notebook : Type := mkNotebook {
  nb_pairs : list entry;
  nb_train_pairs : option (list entry);
  nb_val_pairs : option (list entry);
  nb_file : option pystr
}.

(** Cell 8: [train_pairs, val_pairs = train_test_split(pairs, test_size=0.2)].
    The [print] of the two lengths that follows cannot raise. *)
Definition cell8_split (permutation : list Z) (nb : notebook) : result notebook :=
  let! split := Sklearn.train_test_split permutation (nb_pairs nb) (1, 5) in
  Ok {| nb_pairs := nb_pairs nb;
        nb_train_pairs := Some split.1;
        nb_val_pairs := Some split.2;
        nb_file := nb_file nb |}.

(** Cell 9 as stored.  After a comment line its source is
    [import json

     ]with open('preprocessed_data.json', 'w') as f:
         json.dump(pairs, f)
     print("Preprocessed data saved successfully!")]
    The [']'] before [with] matches no bracket, so the cell does not
    compile: running it raises [SyntaxError] before any of its
    statements is executed, and no file is opened or written. *)
Definition cell9_stored (nb : notebook) : result notebook :=
  Raise (SyntaxError "unmatched ']'").

(** The stored cells 4 to 9 run in order with [max_length = 10]; the
    first exception ends the run. *)
Definition run_notebook (lower : pystr -> pystr) (permutation : list Z)
  (corpus : Corpus) : result notebook :=
  let! pairs := cells_4_to_7 lower 10 corpus in
  let nb := {| nb_pairs := pairs; nb_train_pairs := None;
               nb_val_pairs := None; nb_file := None |} in
  let! nb := cell8_split permutation nb in
  cell9_stored nb.

(** ** Cell 4 on texts that need not be strings

    [utt.text] is whatever the corpus holds.  [clean_text] calls the
    method [lower] of its argument and hands the result to [re.sub]; the
    first fails on a value that has no such method, the second on a
    value that is not a [str]. *)

Inductive pyval : Type :=
| VStr (s : pystr)
| VNone
| VInt (n : Z)
| VBytes (b : list N).

Definition type_name (v : pyval) : string :=
  match v with
  | VStr _ => "str"
  | VNone => "NoneType"
  | VInt _ => "int"
  | VBytes _ => "bytes"
  end.

(** [text.lower()] *)
Definition method_lower (lower : pystr -> pystr) (text : pyval) : result pyval :=
  match text with
  | VStr s => Ok (VStr (lower s))
  | VBytes b => Ok (VBytes (Str.ascii_lower b))
  | VNone | VInt _ => Raise (AttributeError (type_name text) "lower")
  end.

(** [re.sub(r"[^a-zA-Z0-9\s]", "", text)] *)
Definition re_sub_cleaning (text : pyval) : result pyval :=
  match text with
  | VStr s => Ok (VStr (Re.sub cleaning_pattern [] s))
  | VBytes _ =>
      Raise (TypeError "cannot use a string pattern on a bytes-like object")
  | VNone | VInt _ => Raise (TypeError "expected string or bytes-like object")
  end.

(** [clean_text] as the interpreter runs it on any value. *)
Definition clean_text_dyn (lower : pystr -> pystr) (text : pyval) : result pyval :=
  let! text := method_lower lower text in
  let! text := re_sub_cleaning text in
  Ok text.

(** The loop of cell 4 over conversations given as the lists of their
    utterance texts; the first exception ends it. *)
Definition cell4_dyn (lower : pystr -> pystr) (corpus : list (list pyval))
  : result (list (list pyval)) :=
  Py.comprehension (Py.comprehension (clean_text_dyn lower)) corpus.

(** The handling the specification asks for: a text that is not a string
    is refused as invalid input before any cleaning is tried. *)
Definition spec_clean_text (lower : pystr -> pystr) (text : pyval) : result pyval :=
  match text with
  | VStr s => Ok (VStr (clean_text lower s))
  | VNone | VInt _ | VBytes _ => Raise (ValueError "invalid input")
  end.

Definition is_str (v : pyval) : Prop :=
  match v with VStr _ => True | _ => False end.

(** The strings of a JSON value, left to right. *)
Fixpoint strings_of (v : Json.value) : list pystr :=
  match v with
  | Json.Str s => [s]
  | Json.Arr items => flat_map strings_of items
  end.

(** Every string of the value is made of Unicode scalar values. *)
Definition scalar_strings (v : Json.value) : Prop :=
  Forall (Forall (fun c => unicode_scalar c = true)) (strings_of v).

(** Decoding what the encoder wrote for [v] gives [v] back, whatever the
    text after it, on any sufficient step budget. *)
Definition decodes (v : Json.value) : Prop :=
  forall fuel rest,
    (Json.size v <= fuel)%nat ->
    Json.scan_once fuel (Json.encode v ++ rest) = Ok (v, rest).

(** What the padding loop does to one element of [pairs]. *)
Definition pad_entry (max_length : Z) (e : entry) : entry :=
  match e with
  | TextPair a b =>
      TokenPair (pad_sequence (tokenize a) max_length)
                (pad_sequence (tokenize b) max_length)
  | TokenPair a b => TokenPair a b
  end.

Definition is_text_pair (e : entry) : Prop :=
  match e with TextPair _ _ => True | TokenPair _ _ => False end.

(** The pairs of texts of adjacent utterances, in order. *)
Fixpoint adjacent_pairs (utterances : list Utterance) : list entry :=
  match utterances with
  | a :: rest =>
      match rest with
      | b :: _ => TextPair (text a) (text b) :: adjacent_pairs rest
      | [] => []
      end
  | [] => []
  end.

(** What cells 4 and 5 together do to one utterance. *)
Definition process_utterance (lower : pystr -> pystr) (utt : Utterance)
  : Utterance :=
  let utt := set_text (clean_text lower (text utt)) utt in
  set_tokens (tokenize (text utt)) utt.

(** The cached tokens of an utterance agree with its text. *)
Definition tokens_current (utt : Utterance) : Prop :=
  tokens utt = Some (tokenize (text utt)).

(** The class [[a-zA-Z0-9]]: what the cleaning pattern keeps besides
    whitespace. *)
Definition is_alnum (c : char) : bool :=
  is_lower_az c || is_upper_AZ c || is_digit09 c.

(** The characters [' '..'~'] that [ensure_ascii] output is made of. *)
Definition is_printable_ascii (c : char) : bool := in_range 32%N 126%N c.

(** * Properties *)

Section PySeqFacts.
Context {A : Type}.
Implicit Types (l : list A) (x : A).

Lemma slice_to_nonneg l stop :
  0 <= stop -> Py.slice_to l stop = take (Z.to_nat stop) l.
Proof.
  intros Hs. unfold Py.slice_to.
  destruct (Z.ltb_spec stop 0); [lia | reflexivity].
Qed.

Lemma list_mul_singleton x n :
  Py.list_mul [x] n = replicate (Z.to_nat n) x.
Proof.
  unfold Py.list_mul. destruct (Z.leb_spec n 0) as [Hn | Hn].
  - replace (Z.to_nat n) with O by lia. reflexivity.
  - induction (Z.to_nat n) as [| k IH]; simpl; [reflexivity | by rewrite IH].
Qed.

Lemma slice_to_sublist l stop : sublist (Py.slice_to l stop) l.
Proof. unfold Py.slice_to. destruct (stop <? 0); apply sublist_take. Qed.

End PySeqFacts.

Lemma pad_sequence_nonneg (sequence : list token) (max_length : Z) :
  0 <= max_length ->
  pad_sequence sequence max_length =
    take (Z.to_nat max_length) sequence
    ++ replicate (Z.to_nat max_length - length sequence)%nat PAD.
Proof.
  intros Hm. unfold pad_sequence, Py.len.
  rewrite slice_to_nonneg by done. rewrite list_mul_singleton.
  do 2 f_equal. lia.
Qed.

Lemma pad_sequence_length (sequence : list token) (max_length : Z) :
  0 <= max_length ->
  length (pad_sequence sequence max_length) = Z.to_nat max_length.
Proof.
  intros Hm. rewrite pad_sequence_nonneg by done.
  rewrite length_app, length_take, length_replicate. lia.
Qed.

(** ** The cleaning pattern and the tokenizer *)

Lemma re_sub_delete (pattern : char -> bool) (text : pystr) :
  Re.sub pattern [] text = filter (fun c => pattern c = false) text.
Proof.
  induction text as [| c rest IH]; [reflexivity |].
  rewrite filter_cons. cbn [Re.sub]. rewrite IH.
  destruct (pattern c) eqn:E; case_decide; simpl; congruence.
Qed.

Example clean_hello :
  clean_text Str.ascii_lower (py "Hello, World!") = py "hello world".
Proof. reflexivity. Qed.

Example tokenize_hello :
  tokenize (py "  hello   world ") = [py "hello"; py "world"].
Proof. reflexivity. Qed.

Example pipeline_hello :
  padded_pairs Str.ascii_lower 3
    [mkConversation (py "c1")
       [mkUtterance (py "u1") (py "Hello, World!") None;
        mkUtterance (py "u2") (py "I'm FINE.") None]]
  = Ok [TokenPair [py "hello"; py "world"; py "<PAD>"]
                  [py "im"; py "fine"; py "<PAD>"]].
Proof. reflexivity. Qed.

(** ** The padding loop *)

Lemma bind_Ok {A B} (m : result A) (k : A -> result B) (b : B) :
  bind m k = Ok b -> exists a, m = Ok a /\ k a = Ok b.
Proof. destruct m as [a | e]; simpl; [eauto | discriminate]. Qed.

Lemma for_each_app {S I} (body : I -> S -> result S) (xs ys : list I) (s : S) :
  for_each body (xs ++ ys) s = bind (for_each body xs s) (for_each body ys).
Proof.
  revert s. induction xs as [| x xs IH]; intros s; simpl; [reflexivity |].
  destruct (body x s) as [s' | e]; simpl; [apply IH | reflexivity].
Qed.

Lemma insert_at_boundary {A} (pre post : list A) (x y : A) :
  <[length pre := y]> (pre ++ x :: post) = pre ++ y :: post.
Proof.
  rewrite insert_app_r_alt by lia.
  replace (length pre - length pre)%nat with O by lia. reflexivity.
Qed.

(** Invariant of the loop: the elements before [i] are padded, those from
    [i] on are as cell 6 left them. *)
Lemma pad_loop_inv (max_length : Z) (post pre : list entry) (fuel : nat) :
  Forall is_text_pair post ->
  (length post <= fuel)%nat ->
  pad_loop max_length fuel (length pre) (pre ++ post)
  = Ok (pre ++ map (pad_entry max_length) post).
Proof.
  revert pre fuel.
  induction post as [| e post IH]; intros pre fuel Htxt Hfuel.
  - destruct fuel; simpl; [reflexivity |].
    rewrite lookup_ge_None_2 by (rewrite length_app; simpl; lia). reflexivity.
  - destruct fuel as [| fuel]; [simpl in Hfuel; lia |].
    inversion Htxt as [| ? ? He Hpost]; subst.
    cbn [pad_loop]. rewrite list_lookup_middle by reflexivity.
    destruct e as [a b | a b]; [| destruct He]. cbn [pad_pair bind].
    rewrite insert_at_boundary.
    specialize (IH (pre ++ [TokenPair (pad_sequence (tokenize a) max_length)
                                      (pad_sequence (tokenize b) max_length)])
                   fuel Hpost).
    rewrite length_app in IH. simpl in IH.
    replace (length pre + 1)%nat with (S (length pre)) in IH by lia.
    rewrite <- !app_assoc in IH. simpl in IH.
    rewrite IH by (simpl in Hfuel; lia). reflexivity.
Qed.

Lemma pad_loop_Ok_inv (max_length : Z) (post pre : list entry) (fuel : nat)
  (out : list entry) :
  (length post <= fuel)%nat ->
  pad_loop max_length fuel (length pre) (pre ++ post) = Ok out ->
  Forall is_text_pair post.
Proof.
  revert pre fuel.
  induction post as [| e post IH]; intros pre fuel Hfuel Hrun; [constructor |].
  destruct fuel as [| fuel]; [simpl in Hfuel; lia |].
  cbn [pad_loop] in Hrun. rewrite list_lookup_middle in Hrun by reflexivity.
  destruct e as [a b | a b]; [| discriminate Hrun]. cbn [pad_pair bind] in Hrun.
  rewrite insert_at_boundary in Hrun.
  constructor; [exact I |].
  apply (IH (pre ++ [TokenPair (pad_sequence (tokenize a) max_length)
                               (pad_sequence (tokenize b) max_length)]) fuel).
  - simpl in Hfuel. lia.
  - rewrite length_app. simpl.
    replace (length pre + 1)%nat with (S (length pre)) by lia.
    rewrite <- app_assoc. exact Hrun.
Qed.

Lemma cell7_pad_text (max_length : Z) (pairs : list entry) :
  Forall is_text_pair pairs ->
  cell7_pad max_length pairs = Ok (map (pad_entry max_length) pairs).
Proof.
  intros H. unfold cell7_pad.
  exact (pad_loop_inv max_length pairs [] (length pairs) H (le_n _)).
Qed.

Lemma cell7_pad_Ok (max_length : Z) (pairs out : list entry) :
  cell7_pad max_length pairs = Ok out ->
  Forall is_text_pair pairs /\ out = map (pad_entry max_length) pairs.
Proof.
  intros Hrun.
  assert (Htxt : Forall is_text_pair pairs).
  { unfold cell7_pad in Hrun.
    exact (pad_loop_Ok_inv max_length pairs [] (length pairs) out
             (le_n _) Hrun). }
  split; [exact Htxt |].
  rewrite (cell7_pad_text max_length pairs Htxt) in Hrun. congruence.
Qed.

(** ** Padding *)

Lemma PAD_replicate_drop (sequence : list token) (n : nat) :
  drop (Nat.min (length sequence) n)
       (take n sequence ++ replicate (n - length sequence) PAD)
  = replicate (n - Nat.min (length sequence) n) PAD.
Proof.
  destruct (Nat.le_gt_cases n (length sequence)) as [Hle | Hgt].
  - rewrite Nat.min_r by done.
    replace (n - length sequence)%nat with O by lia.
    replace (n - n)%nat with O by lia. simpl. rewrite app_nil_r.
    apply drop_ge. rewrite length_take. lia.
  - rewrite Nat.min_l by lia. rewrite take_ge by lia.
    rewrite drop_app_length. reflexivity.
Qed.

(** C1.  For [max_length >= 1], [pad_sequence] returns exactly
    [max_length] tokens: the first [min(len(sequence), max_length)] are
    those of the input and the rest are all ['<PAD>'].  An empty input
    gives [max_length] sentinels; an input at least [max_length] long gives
    its first [max_length] tokens, with no sentinel unless the input had
    one; any two padded sequences have the same length, and so have the
    two sides of every element the padding loop of cell 7 leaves in
    [pairs]. *)
Theorem pad_sequence_spec (sequence other : list token) (max_length : Z) :
  1 <= max_length ->
  let n := Z.to_nat max_length in
  let k := Nat.min (length sequence) n in
  let padded := pad_sequence sequence max_length in
  length padded = n
  /\ take k padded = take k sequence
  /\ drop k padded = replicate (n - k) PAD
  /\ (sequence = [] -> padded = replicate n PAD)
  /\ (max_length <= Py.len sequence ->
      padded = take n sequence /\ (PAD ∉ sequence -> PAD ∉ padded))
  /\ length (pad_sequence other max_length) = length padded
  /\ (forall pairs out, cell7_pad max_length pairs = Ok out ->
      Forall (fun e => exists a b,
                  e = TokenPair a b /\ length a = n /\ length b = n) out).
Proof.
  intros Hm n k padded.
  assert (Hm0 : 0 <= max_length) by lia.
  assert (Hpad : padded = take n sequence
                          ++ replicate (n - length sequence) PAD).
  { apply pad_sequence_nonneg; exact Hm0. }
  split; [apply pad_sequence_length; exact Hm0 |].
  split.
  { rewrite Hpad. rewrite take_app_le by (rewrite length_take; lia).
    rewrite take_take. f_equal. lia. }
  split; [rewrite Hpad; apply PAD_replicate_drop |].
  split.
  { intros ->. rewrite Hpad. simpl. rewrite take_nil. simpl.
    f_equal. lia. }
  split.
  { unfold Py.len. intros Hlen.
    assert (Heq : padded = take n sequence).
    { rewrite Hpad. replace (n - length sequence)%nat with O by lia.
      apply app_nil_r. }
    split; [exact Heq |].
    rewrite Heq. intros Hno Hin. apply Hno.
    eapply elem_of_sublist; [exact Hin | apply sublist_take]. }
  split.
  { unfold padded. rewrite !pad_sequence_length by exact Hm0. reflexivity. }
  intros pairs out Hrun.
  apply cell7_pad_Ok in Hrun as [Htxt ->].
  apply Forall_fmap. apply (Forall_impl _ _ _ Htxt).
  intros [a b | a b] He; [| destruct He]. simpl.
  eexists _, _. split; [reflexivity |].
  rewrite !pad_sequence_length by exact Hm0. split; reflexivity.
Qed.

Lemma pad_sequence_spec_witness :
  1 <= 3 /\
  length (pad_sequence [py "hello"; py "world"] 3) = 3%nat /\
  drop 2 (pad_sequence [py "hello"; py "world"] 3) = [PAD].
Proof.
  split; [lia |].
  pose proof (pad_sequence_spec [py "hello"; py "world"] [] 3 ltac:(lia))
    as (Hlen & _ & Hdrop & _).
  split; [exact Hlen | exact Hdrop].
Defined.

(** ** Pairing *)

Lemma index_nat {A} (l : list A) (k : nat) (x : A) :
  l !! k = Some x -> Py.index l (Z.of_nat k) = Ok x.
Proof.
  intros Hk. unfold Py.index.
  destruct (Z.ltb_spec (Z.of_nat k) 0) as [Hneg | _]; [lia |].
  destruct (Z.ltb_spec (Z.of_nat k) 0) as [Hneg | _]; [lia |].
  rewrite Nat2Z.id, Hk. reflexivity.
Qed.

Lemma range_len_pred {A} (l : list A) :
  Py.range (Py.len l - 1) = map Z.of_nat (seq 0 (length l - 1)).
Proof. unfold Py.range, Py.len. do 2 f_equal. lia. Qed.

Lemma adjacent_pairs_length (us : list Utterance) :
  length (adjacent_pairs us) = (length us - 1)%nat.
Proof.
  induction us as [| a [| b rest] IH]; [reflexivity | reflexivity |].
  change (adjacent_pairs (a :: b :: rest))
    with (TextPair (text a) (text b) :: adjacent_pairs (b :: rest)).
  simpl length in *. rewrite IH. lia.
Qed.

Lemma adjacent_pairs_lookup (us : list Utterance) (i : nat) (e : entry) :
  adjacent_pairs us !! i = Some e <->
  exists a b, us !! i = Some a /\ us !! S i = Some b
              /\ e = TextPair (text a) (text b).
Proof.
  revert i. induction us as [| a [| b rest] IH]; intros i.
  - simpl. split; [discriminate | intros (? & ? & H & _); discriminate].
  - simpl. split; [discriminate |].
    intros (? & ? & _ & H & _). destruct i; discriminate.
  - change (adjacent_pairs (a :: b :: rest))
      with (TextPair (text a) (text b) :: adjacent_pairs (b :: rest)).
    destruct i as [| i].
    + simpl. split.
      * intros [= <-]. eauto.
      * intros (? & ? & [= <-] & [= <-] & ->). reflexivity.
    + change ((TextPair (text a) (text b) :: adjacent_pairs (b :: rest)) !! S i)
        with (adjacent_pairs (b :: rest) !! i).
      rewrite IH. reflexivity.
Qed.

(** The inner loop of cell 6, started at index [length pre]. *)
Lemma append_pair_loop (rest pre : list Utterance) (pairs : list entry) :
  for_each (append_pair (pre ++ rest))
           (map Z.of_nat (seq (length pre) (length rest - 1))) pairs
  = Ok (pairs ++ adjacent_pairs rest).
Proof.
  revert pre pairs.
  induction rest as [| a [| b rest] IH]; intros pre pairs.
  - simpl. rewrite app_nil_r. reflexivity.
  - simpl. rewrite app_nil_r. reflexivity.
  - change (adjacent_pairs (a :: b :: rest))
      with (TextPair (text a) (text b) :: adjacent_pairs (b :: rest)).
    replace (length (a :: b :: rest) - 1)%nat with (S (length rest))
      by (simpl; lia).
    cbn [seq map for_each]. unfold append_pair at 1.
    rewrite (index_nat _ _ a) by (apply list_lookup_middle; reflexivity).
    replace (Z.of_nat (length pre) + 1) with (Z.of_nat (length (pre ++ [a])))
      by (rewrite length_app; simpl; lia).
    rewrite (index_nat _ _ b).
    2:{ replace (pre ++ a :: b :: rest) with ((pre ++ [a]) ++ b :: rest)
          by (rewrite <- app_assoc; reflexivity).
        apply list_lookup_middle. reflexivity. }
    cbn [bind].
    specialize (IH (pre ++ [a]) (pairs ++ [TextPair (text a) (text b)])).
    rewrite <- app_assoc in IH. simpl app in IH.
    rewrite length_app in IH. simpl length in IH.
    replace (length pre + 1)%nat with (S (length pre)) in IH by lia.
    replace (S (length rest) - 1)%nat with (length rest) in IH by lia.
    rewrite IH. rewrite <- app_assoc. reflexivity.
Qed.

Lemma pair_conversation_Ok (convo : Conversation) (pairs : list entry) :
  pair_conversation convo pairs
  = Ok (pairs ++ adjacent_pairs (utterances convo)).
Proof.
  unfold pair_conversation. rewrite range_len_pred.
  exact (append_pair_loop (utterances convo) [] pairs).
Qed.

Lemma for_each_conversations (corpus : Corpus) (pairs : list entry) :
  for_each pair_conversation corpus pairs
  = Ok (pairs ++ flat_map (fun convo => adjacent_pairs (utterances convo)) corpus).
Proof.
  revert pairs. induction corpus as [| convo corpus IH]; intros pairs.
  - simpl. rewrite app_nil_r. reflexivity.
  - cbn [for_each flat_map]. rewrite pair_conversation_Ok. cbn [bind].
    rewrite IH, <- app_assoc. reflexivity.
Qed.

Lemma cell6_pairs_Ok (corpus : Corpus) :
  cell6_pairs corpus
  = Ok (flat_map (fun convo => adjacent_pairs (utterances convo)) corpus).
Proof. unfold cell6_pairs. rewrite for_each_conversations. reflexivity. Qed.

Lemma adjacent_pairs_text (us : list Utterance) :
  Forall is_text_pair (adjacent_pairs us).
Proof.
  induction us as [| a [| b rest] IH]; [constructor | constructor |].
  change (adjacent_pairs (a :: b :: rest))
    with (TextPair (text a) (text b) :: adjacent_pairs (b :: rest)).
  constructor; [exact I | exact IH].
Qed.

(** C2.  From a conversation with [n] utterances the pairing loop appends
    exactly [max(n-1, 0)] pairs, the [i]-th being
    [(utterances[i].text, utterances[i+1].text)], and none (without an
    exception) when [n < 2].  The list cell 6 builds is the
    concatenation of these per-conversation lists, so each of its pairs
    links two adjacent utterances of one conversation. *)
Theorem pair_extractor_spec (corpus : Corpus) :
  (forall (convo : Conversation) (acc : list entry),
      exists out : list entry,
        pair_conversation convo acc = Ok (acc ++ out)
        /\ Z.of_nat (length out) = Z.max (Py.len (utterances convo) - 1) 0
        /\ (forall i a b,
               utterances convo !! i = Some a ->
               utterances convo !! S i = Some b ->
               out !! i = Some (TextPair (text a) (text b)))
        /\ ((length (utterances convo) < 2)%nat -> out = []))
  /\ exists pairs : list entry,
      cell6_pairs corpus = Ok pairs
      /\ pairs = flat_map (fun convo => adjacent_pairs (utterances convo)) corpus
      /\ forall e, e ∈ pairs ->
           exists convo i a b,
             convo ∈ corpus
             /\ utterances convo !! i = Some a
             /\ utterances convo !! S i = Some b
             /\ e = TextPair (text a) (text b).
Proof.
  split.
  - intros convo acc. exists (adjacent_pairs (utterances convo)).
    split; [apply pair_conversation_Ok |].
    split; [rewrite adjacent_pairs_length; unfold Py.len; lia |].
    split.
    + intros i a b Ha Hb. apply adjacent_pairs_lookup. eauto.
    + intros Hlt. apply length_zero_iff_nil.
      rewrite adjacent_pairs_length. lia.
  - eexists. split; [apply cell6_pairs_Ok |]. split; [reflexivity |].
    intros e He. apply list_elem_of_In, in_flat_map in He
      as (convo & Hconvo & He).
    apply list_elem_of_In, list_elem_of_lookup_1 in He as (i & Hi).
    apply adjacent_pairs_lookup in Hi as (a & b & Ha & Hb & ->).
    exists convo, i, a, b. split; [apply list_elem_of_In; exact Hconvo |].
    auto.
Qed.

(** ** Cleaning *)

Lemma in_range_spec (lo hi c : char) :
  in_range lo hi c = true <-> (lo <= c /\ c <= hi)%N.
Proof. unfold in_range. rewrite andb_true_iff, !N.leb_le. reflexivity. Qed.

Lemma upper_not_kept (c : char) :
  is_upper_AZ c = false ->
  negb (cleaning_pattern c) = lower_alnum_space c.
Proof.
  intros Hup. unfold cleaning_pattern, lower_alnum_space.
  rewrite negb_involutive, Hup, orb_false_r. reflexivity.
Qed.

Lemma kept_not_upper (c : char) :
  lower_alnum_space c = true -> is_upper_AZ c = false.
Proof.
  intros Hk. apply not_true_is_false. intros Hup.
  apply in_range_spec in Hup.
  unfold lower_alnum_space, is_lower_az, is_digit09, isspace in Hk.
  rewrite !orb_true_iff, !in_range_spec, !N.eqb_eq in Hk. lia.
Qed.

Lemma filter_ext_on {A} (P Q : A -> Prop)
  `{!forall x, Decision (P x)} `{!forall x, Decision (Q x)} (l : list A) :
  Forall (fun x => P x <-> Q x) l -> filter P l = filter Q l.
Proof.
  induction 1 as [| x l Hx _ IH]; [reflexivity |].
  rewrite !filter_cons, IH. repeat case_decide; tauto.
Qed.

Lemma clean_text_filter (lower : pystr -> pystr) (s : pystr) :
  clean_text lower s = filter (fun c => cleaning_pattern c = false) (lower s).
Proof. unfold clean_text. apply re_sub_delete. Qed.

Lemma clean_text_chars (lower : pystr -> pystr) (s : pystr) (c : char) :
  c ∈ clean_text lower s -> cleaning_pattern c = false /\ c ∈ lower s.
Proof.
  rewrite clean_text_filter, list_elem_of_filter. tauto.
Qed.

(** C3.  [clean_text(s)] is the lower-cased string with every character
    outside [[a-z0-9]] and whitespace deleted and nothing inserted, so it
    consists of characters of [[a-z0-9\s]] only and has no upper-case
    letter.  The lower-casing is the interpreter's [str.lower]; what is
    used of it is that its result holds none of [A-Z]. *)
Theorem clean_text_spec (lower : pystr -> pystr) (s : pystr) :
  Forall (fun c => is_upper_AZ c = false) (lower s) ->
  clean_text lower s = filter (fun c => lower_alnum_space c = true) (lower s)
  /\ sublist (clean_text lower s) (lower s)
  /\ Forall (fun c => lower_alnum_space c = true) (clean_text lower s)
  /\ Forall (fun c => is_upper_AZ c = false) (clean_text lower s).
Proof.
  intros Hlow.
  assert (Heq : clean_text lower s
                = filter (fun c => lower_alnum_space c = true) (lower s)).
  { rewrite clean_text_filter. apply filter_ext_on.
    apply (Forall_impl _ _ _ Hlow). intros c Hc.
    rewrite <- (upper_not_kept c Hc).
    destruct (cleaning_pattern c); simpl; split; congruence. }
  split; [exact Heq |].
  split; [rewrite Heq; apply sublist_filter |].
  assert (Hkept : Forall (fun c => lower_alnum_space c = true)
                         (clean_text lower s)).
  { rewrite Heq. apply Forall_forall. intros c Hc.
    apply list_elem_of_filter in Hc. tauto. }
  split; [exact Hkept |].
  apply (Forall_impl _ _ _ Hkept). exact kept_not_upper.
Qed.

Lemma clean_text_spec_witness :
  Forall (fun c => is_upper_AZ c = false)
         (Str.ascii_lower (py "Hello, World!"))
  /\ Forall (fun c => lower_alnum_space c = true)
            (clean_text Str.ascii_lower (py "Hello, World!")).
Proof.
  assert (H : Forall (fun c => is_upper_AZ c = false)
                     (Str.ascii_lower (py "Hello, World!")))
    by (repeat constructor).
  split; [exact H |].
  exact (proj1 (proj2 (proj2 (clean_text_spec Str.ascii_lower _ H)))).
Defined.

(** The ASCII lower-casing leaves no upper-case letter, as [str.lower]
    does on every string. *)
Lemma ascii_lower_no_upper (s : pystr) :
  Forall (fun c => is_upper_AZ c = false) (Str.ascii_lower s).
Proof.
  unfold Str.ascii_lower. apply Forall_fmap, Forall_forall. intros c _.
  simpl. destruct (is_upper_AZ c) eqn:E; [| exact E].
  apply in_range_spec in E. apply not_true_is_false. intros E'.
  apply in_range_spec in E'. lia.
Qed.

(** ** Tokenization *)

Lemma cut_at_whitespace_cons (text : pystr) :
  exists w ws, cut_at_whitespace text = w :: ws.
Proof.
  destruct text as [| c rest]; simpl; [eauto |].
  destruct (isspace c); [eauto |].
  destruct (cut_at_whitespace rest); eauto.
Qed.

(** The loop of [split] against the specification's wording: the word
    being collected is the beginning of the first piece. *)
Lemma split_from_cut (text word : pystr) :
  exists w ws,
    cut_at_whitespace text = w :: ws
    /\ Str.split_from word text
       = filter (fun x => is_empty_str x = false) ((word ++ w) :: ws).
Proof.
  revert word. induction text as [| c rest IH]; intros word.
  - exists [], []. split; [reflexivity |]. rewrite app_nil_r.
    destruct word; reflexivity.
  - cbn [Str.split_from cut_at_whitespace]. destruct (isspace c).
    + destruct (IH []) as (w & ws & Hcut & Hsplit).
      exists [], (cut_at_whitespace rest). split; [reflexivity |].
      rewrite app_nil_r, Hsplit, Hcut.
      destruct word; reflexivity.
    + destruct (IH (word ++ [c])) as (w & ws & Hcut & Hsplit).
      rewrite Hcut. exists (c :: w), ws. split; [reflexivity |].
      rewrite Hsplit, <- app_assoc. reflexivity.
Qed.

Lemma tokenize_refines (text : pystr) : tokenize text = spec_tokenize text.
Proof.
  unfold tokenize, Str.split, spec_tokenize.
  destruct (split_from_cut text []) as (w & ws & Hcut & Hsplit).
  rewrite Hsplit, Hcut. reflexivity.
Qed.

Lemma cut_at_whitespace_concat (text : pystr) :
  concat (cut_at_whitespace text) = filter (fun c => isspace c = false) text.
Proof.
  induction text as [| c rest IH]; [reflexivity |].
  cbn [cut_at_whitespace]. rewrite filter_cons.
  destruct (isspace c) eqn:E; case_decide; try congruence.
  - simpl. exact IH.
  - destruct (cut_at_whitespace_cons rest) as (w & ws & Hcut).
    rewrite Hcut in *. simpl in *. congruence.
Qed.

Lemma concat_filter_nonempty (l : list pystr) :
  concat (filter (fun x => is_empty_str x = false) l) = concat l.
Proof.
  induction l as [| w l IH]; [reflexivity |].
  rewrite filter_cons. destruct w; case_decide; simpl in *;
    try congruence.
Qed.

Lemma tokenize_concat (text : pystr) :
  concat (tokenize text) = filter (fun c => isspace c = false) text.
Proof.
  rewrite tokenize_refines. unfold spec_tokenize.
  rewrite concat_filter_nonempty. apply cut_at_whitespace_concat.
Qed.

Lemma tokenize_nonempty (text : pystr) : [] ∉ tokenize text.
Proof.
  rewrite tokenize_refines. unfold spec_tokenize.
  rewrite list_elem_of_filter. intros [H _]. discriminate H.
Qed.

Lemma token_chars (text : pystr) (t : token) (c : char) :
  t ∈ tokenize text -> c ∈ t -> isspace c = false /\ c ∈ text.
Proof.
  intros Ht Hc.
  assert (Hcat : c ∈ concat (tokenize text)).
  { apply list_elem_of_In, in_concat. exists t.
    split; apply list_elem_of_In; assumption. }
  rewrite tokenize_concat in Hcat. apply list_elem_of_filter in Hcat.
  exact Hcat.
Qed.

(** C4.  [tokenize] returns, in order, the pieces of the text between
    whitespace, without the empty pieces that leading, trailing or
    repeated whitespace would give: no token is empty, no token holds
    whitespace, the tokens concatenated are the text without its
    whitespace, the empty string has no tokens, and the tokens of a
    cleaned text are never empty. *)
Theorem tokenize_spec (text : pystr) :
  tokenize text = spec_tokenize text
  /\ ([] ∉ tokenize text)
  /\ Forall (Forall (fun c => isspace c = false)) (tokenize text)
  /\ concat (tokenize text) = filter (fun c => isspace c = false) text
  /\ tokenize [] = []
  /\ forall lower : pystr -> pystr, [] ∉ tokenize (clean_text lower text).
Proof.
  split; [apply tokenize_refines |].
  split; [apply tokenize_nonempty |].
  split.
  { apply Forall_forall. intros t Ht. apply Forall_forall. intros c Hc.
    exact (proj1 (token_chars text t c Ht Hc)). }
  split; [apply tokenize_concat |].
  split; [reflexivity |].
  intros lower. apply tokenize_nonempty.
Qed.

(** ** The pipeline up to padding *)

Lemma update_utterances_compose (f g : Utterance -> Utterance) (corpus : Corpus) :
  update_utterances g (update_utterances f corpus)
  = update_utterances (fun utt => g (f utt)) corpus.
Proof.
  unfold update_utterances. rewrite map_map. apply map_ext.
  intros convo. simpl. rewrite map_map. reflexivity.
Qed.

Lemma cells_4_5 (lower : pystr -> pystr) (corpus : Corpus) :
  cell5_tokenize (cell4_clean lower corpus)
  = update_utterances (process_utterance lower) corpus.
Proof.
  unfold cell5_tokenize, cell4_clean. rewrite update_utterances_compose.
  reflexivity.
Qed.

Lemma flat_map_text (f : Conversation -> list entry) (corpus : Corpus) :
  (forall convo, Forall is_text_pair (f convo)) ->
  Forall is_text_pair (flat_map f corpus).
Proof.
  intros Hf. induction corpus as [| convo corpus IH]; [constructor |].
  simpl. apply Forall_app. split; [apply Hf | exact IH].
Qed.

Lemma padded_pairs_Ok (lower : pystr -> pystr) (max_length : Z) (corpus : Corpus) :
  padded_pairs lower max_length corpus
  = Ok (map (pad_entry max_length)
          (flat_map (fun convo => adjacent_pairs (utterances convo))
             (update_utterances (process_utterance lower) corpus))).
Proof.
  unfold padded_pairs. rewrite cells_4_5, cell6_pairs_Ok. cbn [bind].
  apply cell7_pad_text, flat_map_text. intros convo.
  apply adjacent_pairs_text.
Qed.

(** Every element of the padded list comes from two adjacent utterances
    of one conversation of the corpus as loaded. *)
Lemma padded_pairs_elem (lower : pystr -> pystr) (max_length : Z)
  (corpus : Corpus) (out : list entry) (e : entry) :
  padded_pairs lower max_length corpus = Ok out ->
  e ∈ out ->
  exists convo i a b,
    convo ∈ corpus
    /\ utterances convo !! i = Some a
    /\ utterances convo !! S i = Some b
    /\ e = TokenPair
             (pad_sequence (tokenize (clean_text lower (text a))) max_length)
             (pad_sequence (tokenize (clean_text lower (text b))) max_length).
Proof.
  rewrite padded_pairs_Ok. intros [= <-] He.
  apply list_elem_of_fmap in He as (e0 & -> & He0).
  apply list_elem_of_In, in_flat_map in He0 as (convo' & Hconvo' & He0).
  unfold update_utterances in Hconvo'.
  apply in_map_iff in Hconvo' as (convo & <- & Hconvo).
  simpl in He0.
  apply list_elem_of_In, list_elem_of_lookup_1 in He0 as (i & Hi).
  apply adjacent_pairs_lookup in Hi as (a' & b' & Ha' & Hb' & ->).
  change (map (process_utterance lower) (utterances convo))
    with (process_utterance lower <$> utterances convo) in Ha', Hb'.
  rewrite list_lookup_fmap in Ha', Hb'.
  destruct (utterances convo !! i) as [a |] eqn:Ha; [| discriminate].
  destruct (utterances convo !! S i) as [b |] eqn:Hb; [| discriminate].
  injection Ha' as <-. injection Hb' as <-.
  exists convo, i, a, b.
  split; [apply list_elem_of_In; exact Hconvo |].
  split; [exact Ha |]. split; [exact Hb | reflexivity].
Qed.

(** ** The sentinel *)

Lemma PAD_not_clean :
  exists c, c ∈ PAD /\ cleaning_pattern c = true.
Proof. exists 60%N. split; [| reflexivity]. vm_compute. constructor. Qed.

Lemma PAD_not_token (lower : pystr -> pystr) (s : pystr) :
  PAD ∉ tokenize (clean_text lower s).
Proof.
  intros Hin. destruct PAD_not_clean as (c & Hc & Hpat).
  destruct (token_chars _ _ c Hin Hc) as [_ Hclean].
  apply clean_text_chars in Hclean as [Hkeep _]. congruence.
Qed.

Lemma list_mul_lookup_pos {A} (l : list A) (n : Z) (i : nat) (x : A) :
  Py.list_mul l n !! i = Some x -> 0 < n.
Proof.
  unfold Py.list_mul. destruct (Z.leb_spec n 0); [discriminate | lia].
Qed.

Lemma pad_sequence_PAD_position (sequence : list token) (max_length : Z) (i : nat) :
  PAD ∉ sequence ->
  pad_sequence sequence max_length !! i = Some PAD ->
  (length sequence <= i)%nat.
Proof.
  intros Hno Hi. unfold pad_sequence in Hi.
  apply lookup_app_Some in Hi as [Hi | [Hlen Hi]].
  - exfalso. apply Hno. apply list_elem_of_lookup_2 in Hi.
    eapply elem_of_sublist; [exact Hi | apply slice_to_sublist].
  - apply list_mul_lookup_pos in Hi. unfold Py.len in Hi.
    rewrite slice_to_nonneg in Hlen by lia.
    rewrite take_ge in Hlen by lia. exact Hlen.
Qed.

(** C7.  The cleaning pattern deletes ['<'] and ['>'], so no token of a
    cleaned text is ['<PAD>'], whatever the input and the lower-casing;
    in a padded sequence ['<PAD>'] stands only at positions past the
    tokens, and every pair the pipeline leaves in [pairs] is made of two
    such sequences. *)
Theorem sentinel_only_padding (lower : pystr -> pystr) (s : pystr)
  (max_length : Z) :
  (PAD ∉ tokenize (clean_text lower s))
  /\ (forall i,
        pad_sequence (tokenize (clean_text lower s)) max_length !! i = Some PAD ->
        (length (tokenize (clean_text lower s)) <= i)%nat)
  /\ (forall corpus out e,
        padded_pairs lower max_length corpus = Ok out ->
        e ∈ out ->
        exists s1 s2,
          e = TokenPair
                (pad_sequence (tokenize (clean_text lower s1)) max_length)
                (pad_sequence (tokenize (clean_text lower s2)) max_length)).
Proof.
  split; [apply PAD_not_token |].
  split.
  - intros i. apply pad_sequence_PAD_position, PAD_not_token.
  - intros corpus out e Hrun He.
    destruct (padded_pairs_elem lower max_length corpus out e Hrun He)
      as (_ & _ & a & b & _ & _ & _ & ->).
    eauto.
Qed.

(** ** Cached tokens against fresh tokenization *)

Lemma process_utterance_current (lower : pystr -> pystr) (utt : Utterance) :
  tokens_current (process_utterance lower utt).
Proof. reflexivity. Qed.

Lemma append_cached_loop (max_length : Z) (rest pre : list Utterance)
  (pairs : list entry) :
  Forall tokens_current rest ->
  for_each (append_cached_pair max_length (pre ++ rest))
           (map Z.of_nat (seq (length pre) (length rest - 1))) pairs
  = Ok (pairs ++ map (pad_entry max_length) (adjacent_pairs rest)).
Proof.
  revert pre pairs.
  induction rest as [| a [| b rest] IH]; intros pre pairs Hcur.
  - simpl. rewrite app_nil_r. reflexivity.
  - simpl. rewrite app_nil_r. reflexivity.
  - change (adjacent_pairs (a :: b :: rest))
      with (TextPair (text a) (text b) :: adjacent_pairs (b :: rest)).
    replace (length (a :: b :: rest) - 1)%nat with (S (length rest))
      by (simpl; lia).
    inversion Hcur as [| ? ? Ha Hrest]; subst.
    pose proof Hrest as Hrest'.
    inversion Hrest' as [| ? ? Hb _]; subst.
    cbn [seq map for_each]. unfold append_cached_pair at 1.
    rewrite (index_nat _ _ a) by (apply list_lookup_middle; reflexivity).
    replace (Z.of_nat (length pre) + 1) with (Z.of_nat (length (pre ++ [a])))
      by (rewrite length_app; simpl; lia).
    rewrite (index_nat _ _ b).
    2:{ replace (pre ++ a :: b :: rest) with ((pre ++ [a]) ++ b :: rest)
          by (rewrite <- app_assoc; reflexivity).
        apply list_lookup_middle. reflexivity. }
    unfold tokens_current in Ha, Hb.
    cbn [bind]. unfold get_tokens. rewrite Ha, Hb. cbn [bind].
    specialize (IH (pre ++ [a])
                  (pairs ++ [TokenPair
                               (pad_sequence (tokenize (text a)) max_length)
                               (pad_sequence (tokenize (text b)) max_length)])
                  Hrest).
    rewrite <- app_assoc in IH. simpl app in IH.
    rewrite length_app in IH. simpl length in IH.
    replace (length pre + 1)%nat with (S (length pre)) in IH by lia.
    replace (S (length rest) - 1)%nat with (length rest) in IH by lia.
    rewrite IH. rewrite <- app_assoc. reflexivity.
Qed.

Lemma cached_conversations (max_length : Z) (corpus : Corpus)
  (pairs : list entry) :
  Forall (fun convo => Forall tokens_current (utterances convo)) corpus ->
  for_each (fun convo pairs =>
              let utterances := utterances convo in
              for_each (append_cached_pair max_length utterances)
                       (Py.range (Py.len utterances - 1)) pairs)
           corpus pairs
  = Ok (pairs ++ map (pad_entry max_length)
                   (flat_map (fun convo => adjacent_pairs (utterances convo))
                             corpus)).
Proof.
  intros Hcur. revert pairs.
  induction Hcur as [| convo corpus Hconvo _ IH]; intros pairs.
  - simpl. rewrite app_nil_r. reflexivity.
  - cbn [for_each flat_map]. cbv zeta. rewrite range_len_pred.
    pose proof (append_cached_loop max_length (utterances convo) [] pairs
                  Hconvo) as Hloop.
    simpl in Hloop. rewrite Hloop. cbn [bind]. rewrite IH, map_app, <- app_assoc. reflexivity.
Qed.

Lemma processed_current (lower : pystr -> pystr) (corpus : Corpus) :
  Forall (fun convo => Forall tokens_current (utterances convo))
         (update_utterances (process_utterance lower) corpus).
Proof.
  unfold update_utterances. apply Forall_forall. intros convo' Hin.
  apply list_elem_of_In, in_map_iff in Hin as (convo & <- & _). simpl.
  apply Forall_forall. intros utt' Hutt.
  apply list_elem_of_In, in_map_iff in Hutt as (utt & <- & _).
  apply process_utterance_current.
Qed.

(** C9.  After cells 4 and 5 the [tokens] attribute of every utterance is
    what [tokenize] gives on its [text], the text cell 6 pairs and cell 7
    tokenizes again; so pairing and padding the cached tokens produces
    the same list as the notebook's pairing of texts followed by the
    re-tokenizing padding loop. *)
Theorem cached_tokens_equal_fresh (lower : pystr -> pystr) (max_length : Z)
  (corpus : Corpus) :
  (forall convo utt,
      convo ∈ cell5_tokenize (cell4_clean lower corpus) ->
      utt ∈ utterances convo ->
      tokens utt = Some (tokenize (text utt)))
  /\ cached_padded_pairs lower max_length corpus
     = padded_pairs lower max_length corpus
  /\ exists out, padded_pairs lower max_length corpus = Ok out.
Proof.
  pose proof (processed_current lower corpus) as Hcur.
  split.
  - intros convo utt Hconvo Hutt. rewrite cells_4_5 in Hconvo.
    rewrite Forall_forall in Hcur. specialize (Hcur convo Hconvo).
    rewrite Forall_forall in Hcur. exact (Hcur utt Hutt).
  - split; [| rewrite padded_pairs_Ok; eauto].
    rewrite padded_pairs_Ok. unfold cached_padded_pairs.
    rewrite cells_4_5.
    exact (cached_conversations max_length _ [] Hcur).
Qed.

Example json_dump_hello :
  json_dump [TokenPair [py "hello"; py "<PAD>"] [py "im"; py "<PAD>"]]
  = [91; 91; 91; 34; 104; 101; 108; 108; 111; 34; 44; 32; 34; 60; 80; 65; 68;
     62; 34; 93; 44; 32; 91; 34; 105; 109; 34; 44; 32; 34; 60; 80; 65; 68; 62;
     34; 93; 93; 93]%N.
Proof. reflexivity. Qed.

Example json_loads_hello :
  Json.loads (json_dump [TokenPair [py "hello"; py "<PAD>"] []; TextPair [233; 128512; 34; 10]%N []])
  = Ok (json_of_pairs [TokenPair [py "hello"; py "<PAD>"] []; TextPair [233; 128512; 34; 10]%N []]).
Proof. vm_compute. reflexivity. Qed.

(** ** JSON: escapes *)

Section JsonEscapes.
Local Open Scope N_scope.

Lemma hex_value_digit (d : N) :
  d < 16 -> Json.hex_value (Json.hex_digit d) = Some d.
Proof.
  intros Hd.
  assert (Hcases : d = 0 \/ d = 1 \/ d = 2 \/ d = 3 \/ d = 4 \/ d = 5
                   \/ d = 6 \/ d = 7 \/ d = 8 \/ d = 9 \/ d = 10 \/ d = 11
                   \/ d = 12 \/ d = 13 \/ d = 14 \/ d = 15) by lia.
  repeat (destruct Hcases as [-> | Hcases]; [reflexivity |]).
  subst d. reflexivity.
Qed.

Lemma decode_hex4 (n : N) (rest : pystr) :
  n < 65536 -> Json.decode_uXXXX (Json.hex4 n ++ rest) = Ok n.
Proof.
  intros Hn. unfold Json.hex4, Json.decode_uXXXX. cbn [app].
  rewrite !hex_value_digit by (apply N.mod_lt; discriminate).
  f_equal.
  pose proof (N.div_mod n 16 ltac:(discriminate)).
  pose proof (N.div_mod (n / 16) 16 ltac:(discriminate)).
  pose proof (N.div_mod (n / 16 / 16) 16 ltac:(discriminate)).
  assert (H256 : n / 256 = n / 16 / 16)
    by (rewrite N.Div0.div_div; reflexivity).
  assert (H4096 : n / 4096 = n / 16 / 16 / 16)
    by (rewrite !N.Div0.div_div; reflexivity).
  assert (n / 4096 < 16) by (apply N.Div0.div_lt_upper_bound; lia).
  rewrite (N.mod_small (n / 4096) 16) by assumption.
  rewrite H256, H4096 in *. lia.
Qed.

Lemma lor_high_low (a b k : N) :
  b < 2 ^ k -> N.lor (a * 2 ^ k) b = a * 2 ^ k + b.
Proof.
  intros Hb. symmetry.
  assert (Hland : N.land (a * 2 ^ k) b = 0).
  { apply N.bits_inj. intros i. rewrite N.land_spec, N.bits_0.
    destruct (N.lt_ge_cases i k) as [Hlt | Hge].
    - rewrite N.mul_pow2_bits_low by exact Hlt. reflexivity.
    - rewrite <- (N.mod_small b (2 ^ k)) by exact Hb.
      rewrite N.mod_pow2_bits_high by exact Hge.
      apply andb_false_r. }
  rewrite N.add_nocarry_lxor by exact Hland.
  apply N.lxor_lor. exact Hland.
Qed.

(** The surrogate pair the encoder writes for a code point from
    [0x10000] on, and what the decoder makes of it. *)
Lemma surrogates_roundtrip (c : N) :
  0x10000 <= c -> c < 0x110000 ->
  let n := c - 0x10000 in
  let s1 := N.lor 0xd800 (N.land (N.shiftr n 10) 0x3ff) in
  let s2 := N.lor 0xdc00 (N.land n 0x3ff) in
  Json.is_high_surrogate s1 = true
  /\ Json.is_low_surrogate s2 = true
  /\ 0x10000 + N.lor (N.shiftl (s1 - 0xd800) 10) (s2 - 0xdc00) = c.
Proof.
  intros Hlo Hhi n s1 s2.
  assert (Hn : n < 1024 * 1024) by (unfold n; lia).
  assert (Hx : N.land (N.shiftr n 10) 0x3ff = n / 1024).
  { change 0x3ff with (N.ones 10).
    rewrite N.land_ones, N.shiftr_div_pow2.
    change (2 ^ 10) with 1024. apply N.mod_small.
    apply N.Div0.div_lt_upper_bound; lia. }
  assert (Hy : N.land n 0x3ff = n mod 1024).
  { change 0x3ff with (N.ones 10). rewrite N.land_ones. reflexivity. }
  assert (Hxlt : n / 1024 < 1024) by (apply N.Div0.div_lt_upper_bound; lia).
  assert (Hylt : n mod 1024 < 1024) by (apply N.mod_lt; discriminate).
  assert (Hs1 : s1 = 0xd800 + n / 1024).
  { unfold s1. rewrite Hx. change 0xd800 with (54 * 2 ^ 10).
    apply lor_high_low. exact Hxlt. }
  assert (Hs2 : s2 = 0xdc00 + n mod 1024).
  { unfold s2. rewrite Hy. change 0xdc00 with (55 * 2 ^ 10).
    apply lor_high_low. exact Hylt. }
  split; [apply in_range_spec; lia |].
  split; [apply in_range_spec; lia |].
  rewrite Hs1, Hs2.
  replace (0xd800 + n / 1024 - 0xd800) with (n / 1024) by lia.
  replace (0xdc00 + n mod 1024 - 0xdc00) with (n mod 1024) by lia.
  rewrite N.shiftl_mul_pow2, lor_high_low by exact Hylt.
  change (2 ^ 10) with 1024.
  pose proof (N.div_mod n 1024 ltac:(discriminate)). unfold n in *. lia.
Qed.

End JsonEscapes.

(** ** JSON: strings *)

Section JsonStrings.
Local Open Scope N_scope.

Lemma scanstring_plain (f : nat) (c : char) (rest : pystr) :
  (c =? 34) = false -> (c =? 92) = false -> (c <? 32) = false ->
  Json.scanstring (S f) (c :: rest)
  = bind (Json.scanstring f rest) (fun tail => Ok (c :: tail.1, tail.2)).
Proof. intros E1 E2 E3. cbn [Json.scanstring]. rewrite E1, E2, E3. reflexivity. Qed.

Lemma scanstring_u (f : nat) (rest : pystr) :
  Json.scanstring (S f) (92 :: 117 :: rest)
  = bind (Json.decode_uXXXX rest) (fun uni =>
      bind (Json.surrogate_pair uni (drop 4 rest)) (fun paired =>
        match paired with
        | Some uni =>
            bind (Json.scanstring f (drop 6 (drop 4 rest)))
                 (fun tail => Ok (uni :: tail.1, tail.2))
        | None =>
            bind (Json.scanstring f (drop 4 rest))
                 (fun tail => Ok (uni :: tail.1, tail.2))
        end)).
Proof. reflexivity. Qed.

Lemma unicode_scalar_spec (c : char) :
  unicode_scalar c = true <-> c < 0xd800 \/ (0xe000 <= c /\ c < 0x110000).
Proof.
  unfold unicode_scalar.
  rewrite orb_true_iff, andb_true_iff, !N.ltb_lt, N.leb_le. reflexivity.
Qed.

(** One character: what the encoder writes for it decodes to it. *)
Lemma scanstring_escape_char (f : nat) (c : char) (rest : pystr) :
  unicode_scalar c = true ->
  Json.scanstring (S f) (Json.escape_char c ++ rest)
  = bind (Json.scanstring f rest) (fun tail => Ok (c :: tail.1, tail.2)).
Proof.
  intros Hc. apply unicode_scalar_spec in Hc. unfold Json.escape_char.
  destruct (N.eqb_spec c 34) as [-> | H34]; [reflexivity |].
  destruct (N.eqb_spec c 92) as [-> | H92]; [reflexivity |].
  destruct (N.eqb_spec c 8) as [-> | H8]; [reflexivity |].
  destruct (N.eqb_spec c 12) as [-> | H12]; [reflexivity |].
  destruct (N.eqb_spec c 10) as [-> | H10]; [reflexivity |].
  destruct (N.eqb_spec c 13) as [-> | H13]; [reflexivity |].
  destruct (N.eqb_spec c 9) as [-> | H9]; [reflexivity |].
  destruct (in_range 32 126 c) eqn:Hplain.
  - apply in_range_spec in Hplain. cbn [app].
    apply scanstring_plain.
    + apply N.eqb_neq. exact H34.
    + apply N.eqb_neq. exact H92.
    + apply N.ltb_ge. lia.
  - destruct (N.ltb_spec c 0x10000) as [Hbmp | Hastral].
    + cbn [app]. rewrite scanstring_u.
      rewrite decode_hex4 by exact Hbmp. cbn [bind].
      change (drop 4 (Json.hex4 c ++ rest)) with rest.
      unfold Json.surrogate_pair.
      replace (Json.is_high_surrogate c) with false; [reflexivity |].
      symmetry. apply not_true_is_false. intros Hs.
      apply in_range_spec in Hs. lia.
    + destruct (surrogates_roundtrip c Hastral ltac:(lia))
        as (Hs1 & Hs2 & Hpair).
      cbv zeta.
      set (s1 := N.lor 0xd800 (N.land (N.shiftr (c - 0x10000) 10) 0x3ff)) in *.
      set (s2 := N.lor 0xdc00 (N.land (c - 0x10000) 0x3ff)) in *.
      assert (Hs1lt : s1 < 65536) by (apply in_range_spec in Hs1; lia).
      assert (Hs2lt : s2 < 65536) by (apply in_range_spec in Hs2; lia).
      rewrite <- app_assoc. cbn [app]. rewrite scanstring_u.
      rewrite decode_hex4 by exact Hs1lt. cbn [bind].
      change (drop 4 (Json.hex4 s1 ++ 92 :: 117 :: Json.hex4 s2 ++ rest))
        with (92 :: 117 :: Json.hex4 s2 ++ rest).
      unfold Json.surrogate_pair. rewrite Hs1.
      change (Json.next_is_backslash_u (92 :: 117 :: Json.hex4 s2 ++ rest))
        with true.
      change (drop 2 (92 :: 117 :: Json.hex4 s2 ++ rest))
        with (Json.hex4 s2 ++ rest).
      cbn [andb]. rewrite decode_hex4 by exact Hs2lt. cbn [bind].
      rewrite Hs2, Hpair. reflexivity.
Qed.

Lemma scanstring_encoded (s rest : pystr) (f : nat) :
  Forall (fun c => unicode_scalar c = true) s ->
  (length s < f)%nat ->
  Json.scanstring f (flat_map Json.escape_char s ++ 34 :: rest)
  = Ok (s, rest).
Proof.
  intros Hs. revert f. induction Hs as [| c s Hc _ IH]; intros f Hf.
  - destruct f as [| f]; [lia |]. reflexivity.
  - destruct f as [| f]; [simpl in Hf; lia |].
    cbn [flat_map]. rewrite <- app_assoc.
    rewrite scanstring_escape_char by exact Hc.
    rewrite IH by (simpl in Hf; lia). reflexivity.
Qed.

Lemma escape_char_length (c : char) :
  (1 <= length (Json.escape_char c))%nat.
Proof.
  unfold Json.escape_char.
  repeat match goal with
         | |- context [if ?b then _ else _] => destruct b
         end; simpl; lia.
Qed.

Lemma escaped_length (s : pystr) :
  (length s <= length (flat_map Json.escape_char s))%nat.
Proof.
  induction s as [| c s IH]; [reflexivity |].
  cbn [flat_map]. rewrite length_app.
  pose proof (escape_char_length c). simpl. lia.
Qed.

End JsonStrings.

(** ** JSON: values *)

Lemma value_ind_nested (P : Json.value -> Prop) :
  (forall s, P (Json.Str s)) ->
  (forall items, Forall P items -> P (Json.Arr items)) ->
  forall v, P v.
Proof.
  intros HStr HArr. fix IH 1. intros [s | items]; [apply HStr |].
  apply HArr. induction items as [| x items IHitems]; constructor.
  - apply IH.
  - exact IHitems.
Qed.

Lemma encode_head (v : Json.value) :
  exists c t, Json.encode v = c :: t /\ (c = 34%N \/ c = 91%N).
Proof.
  destruct v as [s | [| x xs]]; cbn [Json.encode].
  - unfold Json.encode_basestring_ascii. eauto.
  - exists 91%N, [93%N]. split; [reflexivity | auto].
  - eauto.
Qed.

Lemma skip_ws_encode (v : Json.value) (rest : pystr) :
  Json.skip_ws (Json.encode v ++ rest) = Json.encode v ++ rest
  /\ Json.next_is 93 (Json.encode v ++ rest) = false
  /\ Json.next_is 44 (Json.encode v ++ rest) = false.
Proof.
  destruct (encode_head v) as (c & t & -> & [-> | ->]); repeat split.
Qed.

Lemma sizes_cons (x : Json.value) (xs : list Json.value) :
  Json.sizes (x :: xs) = (S (Json.size x) + Json.sizes xs)%nat.
Proof. reflexivity. Qed.

Lemma size_Arr (items : list Json.value) :
  Json.size (Json.Arr items) = S (Json.sizes items).
Proof. reflexivity. Qed.

Lemma parse_items_encoded (xs : list Json.value) (x : Json.value)
  (fuel : nat) (rest : pystr) :
  Forall decodes (x :: xs) ->
  (Json.sizes (x :: xs) <= fuel)%nat ->
  Json.parse_items fuel
    (Json.encode x
     ++ flat_map (fun y => 44%N :: 32%N :: Json.encode y) xs ++ 93%N :: rest)
  = Ok (x :: xs, rest).
Proof.
  revert x fuel. induction xs as [| y ys IH]; intros x fuel Hdec Hfuel;
    rewrite sizes_cons in Hfuel;
    (destruct fuel as [| fuel]; [lia |]);
    inversion Hdec as [| ? ? Hx Hrest]; subst;
    cbn [Json.parse_items flat_map].
  - rewrite Hx by lia. reflexivity.
  - rewrite Hx by lia. cbn [bind fst snd app].
    change (Json.skip_ws (44%N :: 32%N :: ?t)) with (44%N :: 32%N :: t).
    rewrite <- app_assoc.
    cbn [Json.skip_ws Json.next_is drop].
    change (Json.is_ws 44) with false. cbv iota.
    change (Json.next_is 93 (44%N :: ?t)) with false.
    change ((44 =? 93)%N) with false. change ((44 =? 44)%N) with true.
    cbv iota. cbn [Json.skip_ws]. change (Json.is_ws 32) with true. cbv iota.
    destruct (skip_ws_encode y
                (flat_map (fun y0 => 44%N :: 32%N :: Json.encode y0) ys
                 ++ 93%N :: rest)) as (-> & _ & _).
    rewrite IH by (try assumption; lia). reflexivity.
Qed.

Lemma scalar_strings_Str (s : pystr) :
  scalar_strings (Json.Str s) -> Forall (fun c => unicode_scalar c = true) s.
Proof. unfold scalar_strings. simpl. intros H. inversion H; assumption. Qed.

Lemma scalar_strings_Arr (items : list Json.value) :
  scalar_strings (Json.Arr items) -> Forall scalar_strings items.
Proof.
  unfold scalar_strings. cbn [strings_of].
  induction items as [| x items IH]; intros H; [constructor |].
  cbn [flat_map] in H. apply Forall_app in H as [Hx Hitems].
  constructor; [exact Hx | apply IH; exact Hitems].
Qed.

(** Decoding what the encoder wrote gives the value back, whatever text
    follows it. *)
Lemma scan_once_encoded (v : Json.value) : scalar_strings v -> decodes v.
Proof.
  induction v as [s | items IH] using value_ind_nested; intros Hv.
  - intros fuel rest Hfuel. destruct fuel as [| fuel]; [simpl in Hfuel; lia |].
    apply scalar_strings_Str in Hv.
    cbn [Json.encode]. unfold Json.encode_basestring_ascii.
    cbn [app]. rewrite <- app_assoc. cbn [app Json.scan_once].
    change ((34 =? 34)%N) with true. cbv iota.
    rewrite scanstring_encoded; [reflexivity | exact Hv |].
    rewrite length_app. pose proof (escaped_length s). lia.
  - apply scalar_strings_Arr in Hv.
    assert (Hdec : Forall decodes items).
    { clear -IH Hv. induction IH as [| x items Hx _ IHitems];
        [constructor |].
      inversion Hv; subst. constructor; auto. }
    intros fuel rest Hfuel. rewrite size_Arr in Hfuel.
    destruct fuel as [| fuel]; [lia |].
    destruct items as [| x xs]; [reflexivity |].
    cbn [Json.encode app]. rewrite <- !app_assoc. cbn [app Json.scan_once].
    change ((91 =? 34)%N) with false. change ((91 =? 91)%N) with true.
    cbv iota zeta.
    destruct (skip_ws_encode x
                (flat_map (fun y => 44%N :: 32%N :: Json.encode y) xs
                 ++ 93%N :: rest)) as (-> & -> & _).
    rewrite parse_items_encoded by (try assumption; lia). reflexivity.
Qed.

Lemma size_le_encode (v : Json.value) :
  (Json.size v <= length (Json.encode v))%nat.
Proof.
  induction v as [s | items IH] using value_ind_nested.
  - simpl. lia.
  - rewrite size_Arr. destruct items as [| x xs]; [simpl; lia |].
    inversion IH as [| ? ? Hx Hxs]; subst.
    cbn [Json.encode]. rewrite sizes_cons. cbn [length].
    rewrite !length_app. cbn [length].
    assert (Hsep : (Json.sizes xs
                    <= length (flat_map (fun y => 44%N :: 32%N :: Json.encode y)
                                        xs))%nat).
    { clear -Hxs. induction Hxs as [| y ys Hy _ IHys]; [simpl; lia |].
      rewrite sizes_cons. cbn [flat_map]. rewrite length_app.
      cbn [length]. lia. }
    lia.
Qed.

Lemma loads_encode (v : Json.value) :
  scalar_strings v -> Json.loads (Json.encode v) = Ok v.
Proof.
  intros Hv. unfold Json.loads.
  destruct (skip_ws_encode v []) as (Hskip & _ & _).
  rewrite app_nil_r in Hskip. rewrite Hskip.
  pose proof (scan_once_encoded v Hv
                (2 * length (Json.encode v) + 2)%nat []) as Hscan.
  rewrite app_nil_r in Hscan.
  rewrite Hscan by (pose proof (size_le_encode v); lia).
  reflexivity.
Qed.

(** ** What is written for [pairs] *)

Lemma map_Str_inj (a b : list pystr) :
  map Json.Str a = map Json.Str b -> a = b.
Proof.
  revert b. induction a as [| x a IH]; intros [| y b] H;
    try discriminate; [reflexivity |].
  injection H as -> H. f_equal. apply IH. exact H.
Qed.

Lemma json_of_entry_inj (e1 e2 : entry) :
  json_of_entry e1 = json_of_entry e2 -> e1 = e2.
Proof.
  destruct e1 as [a1 b1 | a1 b1], e2 as [a2 b2 | a2 b2]; simpl; intros H;
    try (injection H as Ha Hb).
  - congruence.
  - destruct a2; discriminate.
  - destruct a1; discriminate.
  - apply map_Str_inj in Ha, Hb. congruence.
Qed.

Lemma json_of_pairs_inj (p1 p2 : list entry) :
  json_of_pairs p1 = json_of_pairs p2 -> p1 = p2.
Proof.
  unfold json_of_pairs. intros [= H]. revert p2 H.
  induction p1 as [| e1 p1 IH]; intros [| e2 p2] H;
    try discriminate; [reflexivity |].
  injection H as He H. f_equal; [apply json_of_entry_inj, He | apply IH, H].
Qed.

Lemma strings_of_map_Str (a : list pystr) :
  flat_map strings_of (map Json.Str a) = a.
Proof. induction a as [| x a IH]; [reflexivity |]. simpl. by rewrite IH. Qed.

Lemma strings_of_entry (e : entry) :
  strings_of (json_of_entry e) = entry_strings e.
Proof.
  destruct e as [a b | a b]; [reflexivity |].
  simpl. rewrite !strings_of_map_Str, app_nil_r. reflexivity.
Qed.

Lemma scalar_strings_pairs (pairs : list entry) :
  Forall (fun e => Forall (Forall (fun c => unicode_scalar c = true))
                          (entry_strings e)) pairs ->
  scalar_strings (json_of_pairs pairs).
Proof.
  unfold scalar_strings, json_of_pairs. cbn [strings_of].
  induction 1 as [| e pairs He _ IH]; [constructor |].
  cbn [map flat_map]. apply Forall_app. split; [| exact IH].
  rewrite strings_of_entry. exact He.
Qed.

Lemma json_dump_loads (pairs : list entry) :
  Forall (fun e => Forall (Forall (fun c => unicode_scalar c = true))
                          (entry_strings e)) pairs ->
  Json.loads (json_dump pairs) = Ok (json_of_pairs pairs).
Proof. intros H. apply loads_encode, scalar_strings_pairs, H. Qed.

(** ** The strings the pipeline writes *)

Lemma kept_char_scalar (c : char) :
  cleaning_pattern c = false -> unicode_scalar c = true.
Proof.
  unfold cleaning_pattern. intros H. apply negb_false_iff in H.
  unfold is_lower_az, is_upper_AZ, is_digit09, isspace in H.
  rewrite !orb_true_iff, !in_range_spec, !N.eqb_eq in H.
  apply unicode_scalar_spec. lia.
Qed.

Lemma PAD_scalar : Forall (fun c => unicode_scalar c = true) PAD.
Proof. repeat constructor. Qed.

Lemma pad_sequence_elem (sequence : list token) (max_length : Z) (t : token) :
  t ∈ pad_sequence sequence max_length -> t ∈ sequence \/ t = PAD.
Proof.
  unfold pad_sequence. rewrite elem_of_app. intros [Ht | Ht].
  - left. eapply elem_of_sublist; [exact Ht | apply slice_to_sublist].
  - right. rewrite list_mul_singleton in Ht.
    apply elem_of_replicate in Ht. tauto.
Qed.

Lemma padded_tokens_scalar (lower : pystr -> pystr) (s : pystr)
  (max_length : Z) :
  Forall (Forall (fun c => unicode_scalar c = true))
         (pad_sequence (tokenize (clean_text lower s)) max_length).
Proof.
  apply Forall_forall. intros t Ht.
  apply pad_sequence_elem in Ht as [Ht | ->]; [| exact PAD_scalar].
  apply Forall_forall. intros c Hc.
  destruct (token_chars _ _ c Ht Hc) as [_ Hclean].
  apply clean_text_chars in Hclean as [Hkeep _].
  apply kept_char_scalar, Hkeep.
Qed.

Lemma padded_pairs_scalar (lower : pystr -> pystr) (max_length : Z)
  (corpus : Corpus) (out : list entry) :
  padded_pairs lower max_length corpus = Ok out ->
  Forall (fun e => Forall (Forall (fun c => unicode_scalar c = true))
                          (entry_strings e)) out.
Proof.
  intros Hrun. apply Forall_forall. intros e He.
  destruct (padded_pairs_elem lower max_length corpus out e Hrun He)
    as (_ & _ & a & b & _ & _ & _ & ->).
  simpl. apply Forall_app. split; apply padded_tokens_scalar.
Qed.

(** C6.  Reading back the text [json.dump] writes for a list of pairs
    gives the nested arrays of strings the list was written as: the same
    token strings in the same order, from which the list of pairs is
    determined uniquely.  This holds whenever the strings are made of
    Unicode scalar values, and so for every list of padded pairs the
    pipeline produces, whose tokens hold letters, digits and the
    characters of ['<PAD>'] only. *)
Theorem serializer_roundtrip (pairs : list entry) :
  Forall (fun e => Forall (Forall (fun c => unicode_scalar c = true))
                          (entry_strings e)) pairs ->
  Json.loads (json_dump pairs) = Ok (json_of_pairs pairs)
  /\ (forall pairs', json_of_pairs pairs' = json_of_pairs pairs ->
                     pairs' = pairs)
  /\ (forall lower max_length corpus out,
         padded_pairs lower max_length corpus = Ok out ->
         Json.loads (json_dump out) = Ok (json_of_pairs out)).
Proof.
  intros Hpairs. split; [apply json_dump_loads, Hpairs |].
  split; [intros pairs'; apply json_of_pairs_inj |].
  intros lower max_length corpus out Hrun.
  eapply json_dump_loads, padded_pairs_scalar, Hrun.
Qed.

Lemma serializer_roundtrip_witness :
  Forall (fun e => Forall (Forall (fun c => unicode_scalar c = true))
                          (entry_strings e))
         [TokenPair [py "hello"; py "<PAD>"] [py "im"; py "<PAD>"]]
  /\ Json.loads
       (json_dump [TokenPair [py "hello"; py "<PAD>"] [py "im"; py "<PAD>"]])
     = Ok (json_of_pairs
             [TokenPair [py "hello"; py "<PAD>"] [py "im"; py "<PAD>"]]).
Proof.
  assert (H : Forall (fun e => Forall (Forall (fun c => unicode_scalar c = true))
                                      (entry_strings e))
                     [TokenPair [py "hello"; py "<PAD>"] [py "im"; py "<PAD>"]])
    by (repeat constructor).
  split; [exact H |].
  exact (proj1 (serializer_roundtrip _ H)).
Defined.

(** ** The split *)

Example split_five :
  Sklearn.train_test_split [3; 1; 4; 0; 2]
    [py "a"; py "b"; py "c"; py "d"; py "e"] (1, 5)
  = Ok ([py "b"; py "e"; py "a"; py "c"], [py "d"]).
Proof. reflexivity. Qed.

Lemma index_in_range {A} (X : list A) (d : A) (i : Z) :
  0 <= i < Py.len X -> Py.index X i = Ok (nth (Z.to_nat i) X d).
Proof.
  unfold Py.len. intros Hi. unfold Py.index.
  destruct (Z.ltb_spec i 0) as [Hneg | _]; [lia |].
  destruct (Z.ltb_spec i 0) as [Hneg | _]; [lia |].
  destruct (X !! Z.to_nat i) as [x |] eqn:Hx.
  - rewrite (nth_lookup_Some _ _ d _ Hx). reflexivity.
  - apply lookup_ge_None in Hx. lia.
Qed.

Lemma safe_indexing_in_range {A} (X : list A) (d : A) (indices : list Z) :
  Forall (fun i => 0 <= i < Py.len X) indices ->
  Sklearn.safe_indexing X indices
  = Ok (map (fun i => nth (Z.to_nat i) X d) indices).
Proof.
  unfold Sklearn.safe_indexing.
  induction 1 as [| i indices Hi _ IH]; [reflexivity |].
  cbn [Py.comprehension map]. rewrite (index_in_range X d i Hi). cbn [bind].
  rewrite IH. reflexivity.
Qed.

Lemma map_nth_range {A} (X : list A) (d : A) :
  map (fun i => nth (Z.to_nat i) X d) (Py.range (Py.len X)) = X.
Proof.
  unfold Py.range, Py.len. rewrite Nat2Z.id, map_map.
  rewrite (map_ext _ (fun i => nth i X d))
    by (intros i; rewrite Nat2Z.id; reflexivity).
  induction X as [| x X IH]; [reflexivity |].
  cbn [length seq map nth]. f_equal.
  rewrite <- seq_shift, map_map. exact IH.
Qed.

Lemma range_bounds (n i : Z) : i ∈ Py.range n -> 0 <= i < n.
Proof.
  unfold Py.range. intros Hi.
  apply list_elem_of_fmap in Hi as (k & -> & Hk).
  apply list_elem_of_In, in_seq in Hk. lia.
Qed.

Lemma ceil_fifth (n : Z) :
  let c := Sklearn.ceil_fraction (1, 5) n in
  n <= 5 * c < n + 5.
Proof.
  unfold Sklearn.ceil_fraction. simpl fst. simpl snd.
  pose proof (Z.div_mod (- (1 * n)) 5 ltac:(lia)) as Hdm.
  pose proof (Z.mod_pos_bound (- (1 * n)) 5 ltac:(lia)) as Hmod.
  cbv zeta. lia.
Qed.

Lemma validate_sizes (n : Z) :
  2 <= n ->
  Sklearn.validate_shuffle_split n (1, 5)
  = Ok (n - Sklearn.ceil_fraction (1, 5) n, Sklearn.ceil_fraction (1, 5) n).
Proof.
  intros Hn. unfold Sklearn.validate_shuffle_split.
  pose proof (ceil_fifth n) as Hc. cbv zeta in Hc.
  change (((1, 5).1 <=? 0) || ((1, 5).2 <=? (1, 5).1)) with false.
  cbv iota zeta.
  destruct (Z.eqb_spec (n - Sklearn.ceil_fraction (1, 5) n) 0) as [H0 | _];
    [lia | reflexivity].
Qed.

Lemma validate_small (n : Z) :
  0 <= n < 2 ->
  Sklearn.validate_shuffle_split n (1, 5)
  = Raise (ValueError "the resulting train set will be empty").
Proof.
  intros Hn. assert (Hcases : n = 0 \/ n = 1) by lia.
  destruct Hcases as [-> | ->]; reflexivity.
Qed.

Lemma lookup_of_nth {A} (X : list A) (d : A) (indices : list Z) :
  Forall (fun i => 0 <= i < Py.len X) indices ->
  Forall2 (fun i e => X !! i = Some e)
          (map Z.to_nat indices)
          (map (fun i => nth (Z.to_nat i) X d) indices).
Proof.
  induction 1 as [| i indices Hi _ IH]; [constructor |].
  cbn [map]. constructor; [| exact IH].
  unfold Py.len in Hi.
  destruct (X !! Z.to_nat i) as [x |] eqn:Hx.
  - rewrite (nth_lookup_Some _ _ d _ Hx). reflexivity.
  - apply lookup_ge_None in Hx. lia.
Qed.

Lemma to_nat_range (n : nat) :
  map Z.to_nat (Py.range (Z.of_nat n)) = seq 0 n.
Proof.
  unfold Py.range. rewrite Nat2Z.id, map_map.
  rewrite (map_ext _ id) by (intros i; apply Nat2Z.id).
  apply map_id.
Qed.

Lemma split_sizes_nat {A} (X : list A) :
  2 <= Py.len X ->
  let k := Z.to_nat (Sklearn.ceil_fraction (1, 5) (Py.len X)) in
  (1 <= k)%nat /\ (k < length X)%nat
  /\ Z.of_nat k = Sklearn.ceil_fraction (1, 5) (Py.len X).
Proof.
  intros Hn k. pose proof (ceil_fifth (Py.len X)) as Hc. cbv zeta in Hc.
  unfold k. unfold Py.len in *. lia.
Qed.

(** With at least two elements and a permutation of the indices the
    call succeeds: the validation part is read off the head of the
    permutation and the training part off the rest. *)
Lemma train_test_split_Ok {A} (X : list A) (d : A) (permutation : list Z) :
  permutation ≡ₚ Py.range (Py.len X) ->
  2 <= Py.len X ->
  let k := Z.to_nat (Sklearn.ceil_fraction (1, 5) (Py.len X)) in
  let f := fun i => nth (Z.to_nat i) X d in
  Sklearn.train_test_split permutation X (1, 5)
  = Ok (map f (drop k permutation), map f (take k permutation)).
Proof.
  intros Hperm Hn k f.
  assert (Hlen : length permutation = length X).
  { rewrite (Permutation_length Hperm). unfold Py.range, Py.len.
    rewrite length_map, length_seq. lia. }
  assert (Hin : Forall (fun i => 0 <= i < Py.len X) permutation).
  { apply Forall_forall. intros i Hi. apply range_bounds.
    rewrite <- Hperm. exact Hi. }
  destruct (split_sizes_nat X Hn) as (Hk1 & Hk2 & Hk).
  fold k in Hk1, Hk2, Hk.
  unfold Sklearn.train_test_split. rewrite validate_sizes by exact Hn.
  cbn [bind fst snd]. cbv zeta.
  rewrite slice_to_nonneg by lia. fold k.
  assert (Hslice : Py.slice permutation
                     (Sklearn.ceil_fraction (1, 5) (Py.len X))
                     (Sklearn.ceil_fraction (1, 5) (Py.len X)
                      + (Py.len X - Sklearn.ceil_fraction (1, 5) (Py.len X)))
                   = drop k permutation).
  { unfold Py.slice, Py.clamp.
    replace (Py.len permutation) with (Py.len X) by (unfold Py.len; lia).
    destruct (Z.ltb_spec (Sklearn.ceil_fraction (1, 5) (Py.len X)) 0); [lia |].
    destruct (Z.ltb_spec
                (Sklearn.ceil_fraction (1, 5) (Py.len X)
                 + (Py.len X - Sklearn.ceil_fraction (1, 5) (Py.len X))) 0);
      [lia |].
    replace (Z.to_nat (Z.min (Sklearn.ceil_fraction (1, 5) (Py.len X)) (Py.len X)))
      with k by (unfold Py.len in *; lia).
    apply take_ge. rewrite length_drop. unfold Py.len in *. lia. }
  rewrite Hslice.
  rewrite (safe_indexing_in_range X d (drop k permutation))
    by (apply Forall_drop; exact Hin).
  cbn [bind].
  rewrite (safe_indexing_in_range X d (take k permutation))
    by (apply Forall_take; exact Hin).
  reflexivity.
Qed.

Lemma floor_four_fifths (n : Z) :
  n - Sklearn.ceil_fraction (1, 5) n = (4 * n) / 5.
Proof.
  pose proof (ceil_fifth n) as Hc. cbv zeta in Hc.
  apply (Z.div_unique _ _ _
           (4 * n - 5 * (n - Sklearn.ceil_fraction (1, 5) n))); lia.
Qed.

(** C5, as the code has it.  [permutation] is the random draw, a
    permutation of the indices.  With at least two pairs the split
    returns a training and a validation list read at disjoint positions
    of [pairs] that together cover every position once: the lengths add
    up to [N], the two lists together are a rearrangement of [pairs],
    and the sizes are [ceil(0.2 N)] for validation and
    [N - ceil(0.2 N) = floor(0.8 N)] for training.  With fewer than two
    pairs the training part would be empty and the call raises
    [ValueError]. *)
Theorem splitter_spec (pairs : list entry) (permutation : list Z) :
  permutation ≡ₚ Py.range (Py.len pairs) ->
  (2 <= Py.len pairs ->
   exists train val : list entry,
     Sklearn.train_test_split permutation pairs (1, 5) = Ok (train, val)
     /\ (length train + length val = length pairs)%nat
     /\ train ++ val ≡ₚ pairs
     /\ Py.len val = Sklearn.ceil_fraction (1, 5) (Py.len pairs)
     /\ Py.len pairs <= 5 * Py.len val < Py.len pairs + 5
     /\ Py.len train = (4 * Py.len pairs) / 5
     /\ exists ind_train ind_val : list nat,
         ind_train ++ ind_val ≡ₚ seq 0 (length pairs)
         /\ Forall2 (fun i e => pairs !! i = Some e) ind_train train
         /\ Forall2 (fun i e => pairs !! i = Some e) ind_val val)
  /\ (Py.len pairs < 2 ->
      Sklearn.train_test_split permutation pairs (1, 5)
      = Raise (ValueError "the resulting train set will be empty")).
Proof.
  intros Hperm. split.
  - intros Hn.
    pose (d := TextPair [] []).
    pose proof (train_test_split_Ok pairs d permutation Hperm Hn) as Hsplit.
    cbv zeta in Hsplit.
    set (k := Z.to_nat (Sklearn.ceil_fraction (1, 5) (Py.len pairs))) in *.
    set (f := fun i : Z => nth (Z.to_nat i) pairs d) in *.
    assert (Hlen : length permutation = length pairs).
    { rewrite (Permutation_length Hperm). unfold Py.range, Py.len.
      rewrite length_map, length_seq. lia. }
    assert (Hin : Forall (fun i => 0 <= i < Py.len pairs) permutation).
    { apply Forall_forall. intros i Hi. apply range_bounds.
      rewrite <- Hperm. exact Hi. }
    destruct (split_sizes_nat pairs Hn) as (Hk1 & Hk2 & Hk).
    fold k in Hk1, Hk2, Hk.
    assert (Hltrain : length (map f (drop k permutation))
                      = (length pairs - k)%nat)
      by (rewrite length_map, length_drop; lia).
    assert (Hlval : length (map f (take k permutation)) = k)
      by (rewrite length_map, length_take; lia).
    exists (map f (drop k permutation)), (map f (take k permutation)).
    split; [exact Hsplit |].
    split; [lia |].
    split.
    { rewrite <- map_app.
      rewrite (Permutation_app_comm (drop k permutation)), take_drop.
      etransitivity; [apply Permutation_map; exact Hperm |].
      unfold f. rewrite map_nth_range. reflexivity. }
    assert (Hval : Py.len (map f (take k permutation))
                   = Sklearn.ceil_fraction (1, 5) (Py.len pairs))
      by (unfold Py.len at 1; rewrite Hlval; exact Hk).
    split; [exact Hval |].
    split; [rewrite Hval; exact (ceil_fifth (Py.len pairs)) |].
    split.
    { rewrite <- floor_four_fifths, <- Hk. unfold Py.len.
      rewrite Hltrain. lia. }
    exists (map Z.to_nat (drop k permutation)),
           (map Z.to_nat (take k permutation)).
    split.
    { rewrite <- map_app.
      rewrite (Permutation_app_comm (drop k permutation)), take_drop.
      rewrite <- to_nat_range. apply Permutation_map. exact Hperm. }
    split; apply lookup_of_nth;
      [apply Forall_drop | apply Forall_take]; exact Hin.
  - intros Hn. unfold Sklearn.train_test_split.
    rewrite validate_small by (unfold Py.len in *; lia). reflexivity.
Qed.

Lemma splitter_spec_witness :
  [3; 1; 4; 0; 2] ≡ₚ Py.range (Py.len [TextPair [] []; TextPair [] [];
                                      TextPair [] []; TextPair [] [];
                                      TextPair [] []])
  /\ exists train val : list entry,
      Sklearn.train_test_split [3; 1; 4; 0; 2]
        [TextPair [] []; TextPair [] []; TextPair [] []; TextPair [] [];
         TextPair [] []] (1, 5) = Ok (train, val).
Proof.
  assert (Hperm : [3; 1; 4; 0; 2]
                  ≡ₚ Py.range (Py.len [TextPair [] []; TextPair [] [];
                                       TextPair [] []; TextPair [] [];
                                       TextPair [] []])).
  { apply (bool_decide_unpack _). reflexivity. }
  split; [exact Hperm |].
  destruct (proj1 (splitter_spec _ _ Hperm) ltac:(unfold Py.len; simpl; lia))
    as (train & val & Hsplit & _).
  exists train, val. exact Hsplit.
Defined.

(** The call on a list of one pair, and on the empty list. *)
Lemma splitter_counterexample :
  ~ (exists train val : list entry,
        Sklearn.train_test_split [0] [TokenPair [py "a"] [py "b"]] (1, 5)
        = Ok (train, val))
  /\ ~ (exists train val : list entry,
           Sklearn.train_test_split [] [] (1, 5) = Ok (train, val)).
Proof. split; intros (train & val & H); discriminate H. Qed.

(** ** The split and the stored cell 9 *)

Lemma cell8_split_frame (permutation : list Z) (nb nb' : notebook) :
  cell8_split permutation nb = Ok nb' ->
  nb_pairs nb' = nb_pairs nb /\ nb_file nb' = nb_file nb.
Proof.
  unfold cell8_split. intros H.
  apply bind_Ok in H as (split & _ & [= <-]). split; reflexivity.
Qed.

Lemma print_first_cons (e : entry) (pairs : list entry) :
  print_first (e :: pairs) = Ok e.
Proof. reflexivity. Qed.

(** With at least one pair the prints succeed and the stored cells 4 to
    7 leave what the loops leave; with none, cell 6 ends in
    [IndexError]. *)
Lemma cells_4_to_7_outcome (lower : pystr -> pystr) (max_length : Z)
  (corpus : Corpus) (out : list entry) :
  padded_pairs lower max_length corpus = Ok out ->
  (out = [] -> cells_4_to_7 lower max_length corpus = Raise IndexError)
  /\ (out <> [] -> cells_4_to_7 lower max_length corpus = Ok out).
Proof.
  rewrite padded_pairs_Ok. intros [= <-].
  unfold cells_4_to_7, cell6_stored, cell7_stored.
  rewrite cells_4_5, cell6_pairs_Ok. cbn [bind].
  assert (Htxt : Forall is_text_pair
                   (flat_map (fun convo => adjacent_pairs (utterances convo))
                      (update_utterances (process_utterance lower) corpus)))
    by (apply flat_map_text; intros convo; apply adjacent_pairs_text).
  destruct (flat_map _ _) as [| e texts] eqn:Htexts.
  - split; [reflexivity | intros H; exfalso; apply H; reflexivity].
  - split; [discriminate |]. intros _.
    rewrite print_first_cons. cbn [bind].
    rewrite (cell7_pad_text max_length _ Htxt). reflexivity.
Qed.

(** C10.  The notebook as stored, run on a conversation of three
    utterances with the split drawing the permutation [1, 0]: cells 4
    to 7 leave the two padded pairs in [pairs], cell 8 assigns
    [train_pairs] and [val_pairs] and leaves [pairs] as it was, and
    cell 9, whose source begins with a stray [']'], raises
    [SyntaxError]: [json.dump(pairs, f)] is not executed and no file is
    written, where the claim has the whole of [pairs] written. *)
Theorem cell9_as_stored_writes_nothing :
  let corpus :=
    [mkConversation (py "c1")
       [mkUtterance (py "u1") (py "Hi!") None;
        mkUtterance (py "u2") (py "Hello there") None;
        mkUtterance (py "u3") (py "Bye.") None]] in
  let pairs :=
    [TokenPair (pad_sequence [py "hi"] 10)
               (pad_sequence [py "hello"; py "there"] 10);
     TokenPair (pad_sequence [py "hello"; py "there"] 10)
               (pad_sequence [py "bye"] 10)] in
  let after_cell8 :=
    {| nb_pairs := pairs;
       nb_train_pairs := Some [TokenPair (pad_sequence [py "hi"] 10)
                                 (pad_sequence [py "hello"; py "there"] 10)];
       nb_val_pairs := Some [TokenPair (pad_sequence [py "hello"; py "there"] 10)
                               (pad_sequence [py "bye"] 10)];
       nb_file := None |} in
  cells_4_to_7 Str.ascii_lower 10 corpus = Ok pairs
  /\ cell8_split [1; 0]
       {| nb_pairs := pairs; nb_train_pairs := None;
          nb_val_pairs := None; nb_file := None |}
     = Ok after_cell8
  /\ cell9_stored after_cell8 = Raise (SyntaxError "unmatched ']'")
  /\ run_notebook Str.ascii_lower [1; 0] corpus
     = Raise (SyntaxError "unmatched ']'").
Proof. cbv zeta. repeat split; reflexivity. Qed.

(** ** Texts that are not strings *)

Lemma clean_text_dyn_str (lower : pystr -> pystr) (s : pystr) :
  clean_text_dyn lower (VStr s) = Ok (VStr (clean_text lower s)).
Proof. reflexivity. Qed.

Lemma comprehension_Raise {A B} (f : A -> result B) (l : list A) (e : exn) :
  Py.comprehension f l = Raise e -> exists x, x ∈ l /\ f x = Raise e.
Proof.
  induction l as [| x l IH]; [discriminate |].
  cbn [Py.comprehension]. destruct (f x) as [y | e'] eqn:Hx; cbn [bind].
  - destruct (Py.comprehension f l) as [ys | e'']; cbn [bind];
      [discriminate |].
    intros [= ->]. destruct (IH eq_refl) as (x' & Hin & Hx').
    exists x'. split; [right; exact Hin | exact Hx'].
  - intros [= ->]. exists x. split; [left | exact Hx].
Qed.

Lemma comprehension_Ok {A B} (f : A -> result B) (l : list A) :
  (exists out, Py.comprehension f l = Ok out)
  <-> Forall (fun x => exists y, f x = Ok y) l.
Proof.
  induction l as [| x l IH]; [split; [constructor | eauto] |].
  cbn [Py.comprehension]. rewrite Forall_cons, <- IH. split.
  - intros (out & H). apply bind_Ok in H as (y & Hy & H).
    apply bind_Ok in H as (ys & Hys & _). eauto.
  - intros ((y & ->) & (ys & ->)). cbn [bind]. eauto.
Qed.

Lemma clean_text_dyn_Ok (lower : pystr -> pystr) (text : pyval) :
  (exists y, clean_text_dyn lower text = Ok y) <-> is_str text.
Proof.
  destruct text; simpl; split; try tauto; try (intros (y & H); discriminate H).
  intros _. eauto.
Qed.

(** C8, as the code has it.  A text that is a string is cleaned.  A
    missing text ([None]) or a number makes [text.lower()], the first
    statement of [clean_text], raise [AttributeError]; a [bytes] text
    gets past it and makes [re.sub] raise [TypeError].  The loop of cell
    4 ends with that same exception, and it ends normally exactly when
    every text is a string.  No invalid-input check is made. *)
Theorem non_string_text_raises (lower : pystr -> pystr) :
  (forall s, clean_text_dyn lower (VStr s) = Ok (VStr (clean_text lower s)))
  /\ clean_text_dyn lower VNone = Raise (AttributeError "NoneType" "lower")
  /\ (forall n, clean_text_dyn lower (VInt n)
                = Raise (AttributeError "int" "lower"))
  /\ (forall b, clean_text_dyn lower (VBytes b)
                = Raise (TypeError
                           "cannot use a string pattern on a bytes-like object"))
  /\ (forall corpus e,
         cell4_dyn lower corpus = Raise e ->
         exists convo text,
           convo ∈ corpus /\ text ∈ convo /\ ~ is_str text
           /\ clean_text_dyn lower text = Raise e)
  /\ (forall corpus,
         (exists out, cell4_dyn lower corpus = Ok out)
         <-> Forall (Forall is_str) corpus).
Proof.
  repeat (split; [reflexivity |]).
  split.
  - intros corpus e H. unfold cell4_dyn in H.
    apply comprehension_Raise in H as (convo & Hconvo & H).
    apply comprehension_Raise in H as (text & Htext & H).
    exists convo, text. repeat (split; [assumption |]).
    split; [| exact H].
    intros Hstr.
    apply (proj2 (clean_text_dyn_Ok lower text)) in Hstr as (y & Hy).
    congruence.
  - intros corpus. unfold cell4_dyn. rewrite comprehension_Ok.
    apply Forall_iff. intros convo. rewrite comprehension_Ok.
    apply Forall_iff. intros text. apply clean_text_dyn_Ok.
Qed.

(** A missing text ends cell 4 with the [AttributeError] of
    [text.lower()], where the specification asks for an invalid-input
    condition. *)
Lemma missing_text_counterexample :
  cell4_dyn Str.ascii_lower [[VStr (py "Hello"); VNone]]
  = Raise (AttributeError "NoneType" "lower")
  /\ clean_text_dyn Str.ascii_lower VNone
     <> spec_clean_text Str.ascii_lower VNone.
Proof. split; [reflexivity | discriminate]. Qed.

(** ** JSON: the decoder's step budget

    The budget [loads] starts with is never used up: the decoder either
    returns a value or raises [JSONDecodeError]. *)

Lemma skip_ws_length (s : pystr) : (length (Json.skip_ws s) <= length s)%nat.
Proof.
  induction s as [| c s IH]; [reflexivity |].
  cbn [Json.skip_ws]. destruct (Json.is_ws c); simpl in *; lia.
Qed.

Lemma scanstring_progress (fuel : nat) (s str rest : pystr) :
  Json.scanstring fuel s = Ok (str, rest) -> (length rest < length s)%nat.
Proof.
  revert s str rest.
  induction fuel as [| fuel IH]; intros s str rest H; [discriminate |].
  cbn [Json.scanstring] in H.
  destruct s as [| c s]; [discriminate |].
  destruct (c =? 34)%N; [injection H as <- <-; simpl; lia |].
  destruct (c =? 92)%N.
  - destruct s as [| esc s]; [discriminate |].
    destruct (esc =? 117)%N.
    + destruct (Json.decode_uXXXX s) as [uni | e]; cbn [bind] in H;
        [| discriminate].
      destruct (Json.surrogate_pair uni (drop 4 s)) as [[uni' |] | e];
        cbn [bind] in H; [| | discriminate];
        apply bind_Ok in H as ([str' rest'] & Htail & [= <- <-]);
        apply IH in Htail; rewrite ?length_drop in Htail; simpl; lia.
    + destruct (Json.BACKSLASH esc) as [char |]; [| discriminate].
      apply bind_Ok in H as ([str' rest'] & Htail & [= <- <-]).
      apply IH in Htail. simpl. lia.
  - destruct (c <? 32)%N; [discriminate |].
    apply bind_Ok in H as ([str' rest'] & Htail & [= <- <-]).
    apply IH in Htail. simpl. lia.
Qed.

Lemma decode_uXXXX_fuel (s : pystr) : Json.decode_uXXXX s <> Raise OutOfFuel.
Proof.
  unfold Json.decode_uXXXX.
  repeat match goal with
         | |- context [match ?x with _ => _ end] => destruct x
         end; discriminate.
Qed.

Lemma surrogate_pair_fuel (uni : N) (s : pystr) :
  Json.surrogate_pair uni s <> Raise OutOfFuel.
Proof.
  unfold Json.surrogate_pair.
  destruct (Json.is_high_surrogate uni && Json.next_is_backslash_u s);
    [| discriminate].
  pose proof (decode_uXXXX_fuel (drop 2 s)) as Hd.
  destruct (Json.decode_uXXXX (drop 2 s)) as [uni2 | e]; cbn [bind];
    [destruct (Json.is_low_surrogate uni2); discriminate | congruence].
Qed.

Ltac bind_not_out_of_fuel IH :=
  match goal with
  | |- bind ?m _ <> Raise OutOfFuel =>
      let E := fresh "E" in
      destruct m as [? | ?] eqn:E; cbn [bind];
      [try discriminate | intros [= ->]; revert E; apply IH; simpl in *; lia]
  end.

Lemma scanstring_fuel (fuel : nat) (s : pystr) :
  (length s < fuel)%nat -> Json.scanstring fuel s <> Raise OutOfFuel.
Proof.
  revert s. induction fuel as [| fuel IH]; intros s Hfuel; [lia |].
  cbn [Json.scanstring].
  destruct s as [| c s]; [discriminate |].
  destruct (c =? 34)%N; [discriminate |].
  destruct (c =? 92)%N.
  - destruct s as [| esc s]; [discriminate |].
    destruct (esc =? 117)%N.
    + pose proof (decode_uXXXX_fuel s) as Hd.
      destruct (Json.decode_uXXXX s) as [uni | e]; cbn [bind];
        [| congruence].
      pose proof (surrogate_pair_fuel uni (drop 4 s)) as Hp.
      destruct (Json.surrogate_pair uni (drop 4 s)) as [[uni' |] | e];
        cbn [bind]; [| | congruence].
      * destruct (Json.scanstring fuel (drop 6 (drop 4 s))) as [? | ?] eqn:E;
          cbn [bind]; [discriminate |].
        intros [= ->]. revert E. apply IH.
        rewrite !length_drop. simpl in Hfuel. lia.
      * destruct (Json.scanstring fuel (drop 4 s)) as [? | ?] eqn:E;
          cbn [bind]; [discriminate |].
        intros [= ->]. revert E. apply IH.
        rewrite !length_drop. simpl in Hfuel. lia.
    + destruct (Json.BACKSLASH esc) as [char |]; [| discriminate].
      bind_not_out_of_fuel IH.
  - destruct (c <? 32)%N; [discriminate |].
    bind_not_out_of_fuel IH.
Qed.

Lemma scan_progress (fuel : nat) :
  (forall s v rest,
      Json.scan_once fuel s = Ok (v, rest) -> (length rest < length s)%nat)
  /\ (forall s vs rest,
         Json.parse_items fuel s = Ok (vs, rest) ->
         (length rest < length s)%nat).
Proof.
  induction fuel as [| fuel [IHscan IHitems]];
    [split; intros; discriminate |].
  split.
  - intros s v rest H. cbn [Json.scan_once] in H.
    destruct s as [| c s]; [discriminate |].
    destruct (c =? 34)%N.
    { apply bind_Ok in H as ([str rest'] & Hstr & [= <- <-]).
      apply scanstring_progress in Hstr. simpl. lia. }
    destruct (c =? 91)%N; [| discriminate].
    cbv zeta in H. pose proof (skip_ws_length s) as Hws.
    destruct (Json.next_is 93 (Json.skip_ws s)).
    + injection H as <- <-. rewrite length_drop. simpl. lia.
    + apply bind_Ok in H as ([vs rest'] & Hitems & [= <- <-]).
      apply IHitems in Hitems. simpl. lia.
  - intros s vs rest H. cbn [Json.parse_items] in H.
    apply bind_Ok in H as ([v rest1] & Hitem & H).
    apply IHscan in Hitem. cbv zeta in H. cbn [fst snd] in H.
    pose proof (skip_ws_length rest1) as Hws.
    destruct (Json.next_is 93 (Json.skip_ws rest1)).
    + injection H as <- <-. rewrite length_drop. lia.
    + destruct (Json.next_is 44 (Json.skip_ws rest1)); [| discriminate].
      apply bind_Ok in H as ([vs' rest'] & Hitems & [= <- <-]).
      apply IHitems in Hitems.
      pose proof (skip_ws_length (drop 1 (Json.skip_ws rest1))) as Hws'.
      rewrite length_drop in Hws'. simpl. lia.
Qed.

Lemma next_is_length (c : char) (s : pystr) :
  Json.next_is c s = true -> (1 <= length s)%nat.
Proof. destruct s; [discriminate | simpl; lia]. Qed.

Lemma scan_fuel (fuel : nat) :
  (forall s, (2 * length s + 1 <= fuel)%nat ->
             Json.scan_once fuel s <> Raise OutOfFuel)
  /\ (forall s, (2 * length s + 2 <= fuel)%nat ->
                Json.parse_items fuel s <> Raise OutOfFuel).
Proof.
  induction fuel as [| fuel [IHscan IHitems]]; [split; intros; lia |].
  split.
  - intros s Hfuel. cbn [Json.scan_once].
    destruct s as [| c s]; [discriminate |].
    destruct (c =? 34)%N.
    { pose proof (scanstring_fuel (S (length s)) s ltac:(lia)) as Hstr.
      destruct (Json.scanstring (S (length s)) s) as [str | e]; cbn [bind];
        [discriminate | congruence]. }
    destruct (c =? 91)%N; [| discriminate].
    cbv zeta. pose proof (skip_ws_length s) as Hws.
    destruct (Json.next_is 93 (Json.skip_ws s)); [discriminate |].
    pose proof (IHitems (Json.skip_ws s) ltac:(simpl in Hfuel; lia)) as Hit.
    destruct (Json.parse_items fuel (Json.skip_ws s)) as [items | e];
      cbn [bind]; [discriminate | congruence].
  - intros s Hfuel. cbn [Json.parse_items].
    pose proof (IHscan s ltac:(lia)) as Hscan.
    destruct (Json.scan_once fuel s) as [[v rest1] | e] eqn:Hitem;
      cbn [bind]; [| congruence].
    apply (proj1 (scan_progress fuel)) in Hitem.
    cbv zeta. cbn [fst snd].
    pose proof (skip_ws_length rest1) as Hws.
    destruct (Json.next_is 93 (Json.skip_ws rest1)); [discriminate |].
    destruct (Json.next_is 44 (Json.skip_ws rest1)) eqn:Hcomma;
      [| discriminate].
    apply next_is_length in Hcomma.
    pose proof (skip_ws_length (drop 1 (Json.skip_ws rest1))) as Hws'.
    rewrite length_drop in Hws'.
    pose proof (IHitems (Json.skip_ws (drop 1 (Json.skip_ws rest1)))
                  ltac:(lia)) as Hit.
    destruct (Json.parse_items fuel
                (Json.skip_ws (drop 1 (Json.skip_ws rest1))))
      as [items | e]; cbn [bind]; [discriminate | congruence].
Qed.

Lemma loads_total (s : pystr) : Json.loads s <> Raise OutOfFuel.
Proof.
  unfold Json.loads. pose proof (skip_ws_length s) as Hws.
  pose proof (proj1 (scan_fuel (2 * length s + 2)) (Json.skip_ws s)
                ltac:(lia)) as Hscan.
  destruct (Json.scan_once (2 * length s + 2) (Json.skip_ws s))
    as [[v rest] | e]; cbn [bind fst snd]; [| congruence].
  destruct (Json.skip_ws rest); discriminate.
Qed.

(** Two surrogate code points in a row are not Unicode scalar values:
    they are written as two escapes and read back as one character. *)
Example surrogates_merge :
  Json.loads (Json.encode (Json.Str [0xd83d; 0xde00]%N))
  = Ok (Json.Str [0x1f600%N]).
Proof. vm_compute. reflexivity. Qed.

(** ** The examples of the specification *)

Example one_utterance_no_pairs :
  padded_pairs Str.ascii_lower 10
    [mkConversation (py "c1") [mkUtterance (py "u1") (py "Hello") None]]
  = Ok [].
Proof. reflexivity. Qed.

Example empty_text_padded :
  pad_sequence (tokenize (clean_text Str.ascii_lower (py ""))) 2 = [PAD; PAD].
Proof. reflexivity. Qed.

(** * Further properties of the notebook's code *)

(** ** [pad_sequence] outside the claimed range and under composition *)

(** X1.  With [max_length <= 0] nothing is appended.  For
    [max_length = 0] the result is empty; for a negative [max_length]
    the slice [sequence[:max_length]] drops the last [-max_length]
    tokens, so the result has [max(len(sequence) + max_length, 0)]
    tokens, which is never [max_length].  In both cases the result is a
    subsequence of the input. *)
Theorem pad_sequence_nonpositive (sequence : list token) (max_length : Z) :
  max_length <= 0 ->
  (max_length = 0 -> pad_sequence sequence max_length = [])
  /\ (max_length < 0 ->
      pad_sequence sequence max_length
      = take (length sequence - Z.to_nat (- max_length)) sequence
      /\ Py.len (pad_sequence sequence max_length)
         = Z.max (Py.len sequence + max_length) 0
      /\ Py.len (pad_sequence sequence max_length) <> max_length)
  /\ sublist (pad_sequence sequence max_length) sequence.
Proof.
  intros Hm.
  assert (Hpad : pad_sequence sequence max_length
                 = Py.slice_to sequence max_length).
  { unfold pad_sequence, Py.list_mul, Py.len.
    destruct (Z.leb_spec (max_length - Z.of_nat (length sequence)) 0);
      [apply app_nil_r | lia]. }
  split; [intros ->; rewrite Hpad; reflexivity |].
  split; [| rewrite Hpad; apply slice_to_sublist].
  intros Hneg.
  assert (Heq : pad_sequence sequence max_length
                = take (length sequence - Z.to_nat (- max_length)) sequence).
  { rewrite Hpad. unfold Py.slice_to.
    destruct (Z.ltb_spec max_length 0); [| lia]. f_equal. lia. }
  split; [exact Heq |].
  rewrite Heq. unfold Py.len. rewrite length_take. split; lia.
Qed.

Lemma pad_sequence_nonpositive_witness :
  -1 <= 0
  /\ pad_sequence [py "a"; py "b"; py "c"] (-1) = [py "a"; py "b"].
Proof.
  split; [lia |].
  exact (proj1 (proj1 (proj2 (pad_sequence_nonpositive
                                [py "a"; py "b"; py "c"] (-1) ltac:(lia)))
                      ltac:(lia))).
Defined.

(** X2.  Padding to [n] and then to a smaller [m] is padding to [m]; in
    particular padding twice to the same length changes nothing. *)
Theorem pad_sequence_compose (sequence : list token) (n m : Z) :
  0 <= m <= n ->
  pad_sequence (pad_sequence sequence n) m = pad_sequence sequence m.
Proof.
  intros [Hm Hmn].
  rewrite (pad_sequence_nonneg (pad_sequence sequence n) m Hm).
  rewrite pad_sequence_length by lia.
  replace (Z.to_nat m - Z.to_nat n)%nat with O by lia.
  rewrite app_nil_r.
  rewrite (pad_sequence_nonneg sequence n) by lia.
  rewrite (pad_sequence_nonneg sequence m Hm).
  rewrite take_app, take_take, length_take, take_replicate.
  f_equal; [f_equal; lia | f_equal; lia].
Qed.

Lemma pad_sequence_compose_witness :
  0 <= 2 <= 3
  /\ pad_sequence (pad_sequence [py "a"] 3) 2 = pad_sequence [py "a"] 2.
Proof.
  split; [lia |].
  exact (pad_sequence_compose [py "a"] 3 2 ltac:(lia)).
Defined.

(** X3.  Only truncation loses tokens: two sequences of at most
    [max_length] tokens, none of them the sentinel, that pad to the same
    sequence are equal. *)
Theorem pad_sequence_injective (s t : list token) (max_length : Z) :
  Py.len s <= max_length -> Py.len t <= max_length ->
  PAD ∉ s -> PAD ∉ t ->
  pad_sequence s max_length = pad_sequence t max_length ->
  s = t.
Proof.
  unfold Py.len. intros Hs Ht Hns Hnt Heq.
  rewrite !pad_sequence_nonneg in Heq by lia.
  rewrite !take_ge in Heq by lia.
  destruct (Nat.lt_trichotomy (length s) (length t)) as [Hlt | [Hlen | Hlt]].
  - exfalso. apply Hnt.
    assert (Hlook : (s ++ replicate (Z.to_nat max_length - length s) PAD)
                    !! length s = Some PAD).
    { rewrite lookup_app_r by lia.
      apply lookup_replicate_2. lia. }
    rewrite Heq, lookup_app_l in Hlook by lia.
    eapply list_elem_of_lookup_2, Hlook.
  - apply app_inj_1 in Heq as [Heq _]; [exact Heq | exact Hlen].
  - exfalso. apply Hns.
    assert (Hlook : (t ++ replicate (Z.to_nat max_length - length t) PAD)
                    !! length t = Some PAD).
    { rewrite lookup_app_r by lia.
      apply lookup_replicate_2. lia. }
    rewrite <- Heq, lookup_app_l in Hlook by lia.
    eapply list_elem_of_lookup_2, Hlook.
Qed.

Lemma pad_sequence_injective_witness :
  Py.len [py "a"] <= 3 /\ (PAD ∉ [py "a"])
  /\ (pad_sequence [py "a"] 3 = pad_sequence [py "a"] 3 -> [py "a"] = [py "a"]).
Proof.
  assert (Hlen : Py.len [py "a"] <= 3) by (unfold Py.len; simpl; lia).
  assert (Hno : PAD ∉ [py "a"]).
  { intros Hin. apply list_elem_of_In in Hin. simpl in Hin.
    destruct Hin as [Hin | []]. discriminate Hin. }
  split; [exact Hlen |]. split; [exact Hno |].
  exact (pad_sequence_injective [py "a"] [py "a"] 3 Hlen Hlen Hno Hno).
Defined.

(** X4.  Tokens from position [max_length] on never reach the output:
    once the input has [max_length] tokens, whatever follows them is
    ignored. *)
Theorem pad_sequence_ignores_tail (s extra : list token) (max_length : Z) :
  0 <= max_length <= Py.len s ->
  pad_sequence (s ++ extra) max_length = pad_sequence s max_length
  /\ pad_sequence s max_length = take (Z.to_nat max_length) s.
Proof.
  unfold Py.len. intros [Hm Hlen].
  rewrite !pad_sequence_nonneg by lia.
  rewrite length_app, take_app_le by lia.
  replace (Z.to_nat max_length - (length s + length extra))%nat with O by lia.
  replace (Z.to_nat max_length - length s)%nat with O by lia.
  simpl. rewrite app_nil_r. split; reflexivity.
Qed.

Lemma pad_sequence_ignores_tail_witness :
  0 <= 1 <= Py.len [py "a"; py "b"]
  /\ pad_sequence ([py "a"; py "b"] ++ [py "c"]) 1
     = pad_sequence [py "a"; py "b"] 1.
Proof.
  assert (H : 0 <= 1 <= Py.len [py "a"; py "b"])
    by (unfold Py.len; simpl; lia).
  split; [exact H |].
  exact (proj1 (pad_sequence_ignores_tail [py "a"; py "b"] [py "c"] 1 H)).
Defined.

(** ** How cleaning and tokenizing compose *)

Lemma cut_at_whitespace_sub (pattern : char -> bool) (text : pystr) :
  (forall c, pattern c = true -> isspace c = false) ->
  cut_at_whitespace (Re.sub pattern [] text)
  = map (Re.sub pattern []) (cut_at_whitespace text).
Proof.
  intros Hpat. induction text as [| c rest IH]; [reflexivity |].
  cbn [Re.sub cut_at_whitespace]. destruct (pattern c) eqn:Hc.
  - rewrite (Hpat c Hc). cbn [app]. rewrite IH.
    destruct (cut_at_whitespace_cons rest) as (w & ws & ->).
    cbn [map Re.sub]. rewrite Hc. reflexivity.
  - cbn [cut_at_whitespace]. rewrite IH. destruct (isspace c).
    + reflexivity.
    + destruct (cut_at_whitespace_cons rest) as (w & ws & ->).
      cbn [map Re.sub]. rewrite Hc. reflexivity.
Qed.

Lemma filter_nonempty_map_sub (pattern : char -> bool) (l : list pystr) :
  filter (fun w => is_empty_str w = false) (map (Re.sub pattern []) l)
  = filter (fun w => is_empty_str w = false)
      (map (Re.sub pattern [])
         (filter (fun w => is_empty_str w = false) l)).
Proof.
  induction l as [| w l IH]; [reflexivity |].
  cbn [map]. destruct w as [| c w].
  - rewrite (filter_cons_False _ [] l) by (simpl; congruence).
    cbn [Re.sub]. rewrite filter_cons_False by (simpl; congruence).
    exact IH.
  - rewrite (filter_cons_True _ (c :: w) l) by reflexivity.
    cbn [map]. rewrite !(filter_cons _ (Re.sub pattern [] (c :: w))).
    rewrite IH. reflexivity.
Qed.

Lemma cleaning_pattern_not_space (c : char) :
  cleaning_pattern c = true -> isspace c = false.
Proof.
  unfold cleaning_pattern. intros H. apply negb_true_iff in H.
  destruct (isspace c); [| reflexivity].
  rewrite !orb_true_r in H. discriminate H.
Qed.

Lemma length_filter_map_le {A B} (P : B -> Prop) `{!forall x, Decision (P x)}
  (f : A -> B) (l : list A) :
  (length (filter P (map f l)) <= length l)%nat.
Proof.
  etransitivity; [apply length_filter |]. rewrite length_map. reflexivity.
Qed.

(** X5.  Tokenizing a cleaned text gives the tokens of the lower-cased
    text, each with the characters outside [[a-zA-Z0-9]] deleted, minus
    those that became empty: cleaning never splits a token, never joins
    two tokens and never adds one. *)
Theorem tokenize_clean_text (lower : pystr -> pystr) (s : pystr) :
  tokenize (clean_text lower s)
  = filter (fun w => is_empty_str w = false)
      (map (Re.sub cleaning_pattern []) (tokenize (lower s)))
  /\ (length (tokenize (clean_text lower s))
      <= length (tokenize (lower s)))%nat.
Proof.
  assert (Heq : tokenize (clean_text lower s)
                = filter (fun w => is_empty_str w = false)
                    (map (Re.sub cleaning_pattern []) (tokenize (lower s)))).
  { rewrite !tokenize_refines. unfold spec_tokenize, clean_text.
    rewrite cut_at_whitespace_sub by exact cleaning_pattern_not_space.
    apply filter_nonempty_map_sub. }
  split; [exact Heq |].
  rewrite Heq. apply length_filter_map_le.
Qed.

Lemma cleaned_token_alnum (lower : pystr -> pystr) (s : pystr) (t : token)
  (c : char) :
  t ∈ tokenize (clean_text lower s) -> c ∈ t ->
  is_alnum c = true /\ c ∈ lower s.
Proof.
  intros Ht Hc. destruct (token_chars _ _ c Ht Hc) as [Hsp Hclean].
  apply clean_text_chars in Hclean as [Hkeep Hlow].
  split; [| exact Hlow].
  unfold cleaning_pattern in Hkeep. apply negb_false_iff in Hkeep.
  unfold is_alnum. rewrite Hsp, orb_false_r in Hkeep. exact Hkeep.
Qed.

(** X6.  Every token of a cleaned text is a non-empty string of letters
    and digits of [[a-zA-Z0-9]], whatever the text and the lower-casing;
    when the lower-cased text holds no [A-Z], of [[a-z0-9]]. *)
Theorem cleaned_tokens_alnum (lower : pystr -> pystr) (s : pystr) (t : token) :
  t ∈ tokenize (clean_text lower s) ->
  t <> []
  /\ Forall (fun c => is_alnum c = true) t
  /\ (Forall (fun c => is_upper_AZ c = false) (lower s) ->
      Forall (fun c => is_lower_az c || is_digit09 c = true) t).
Proof.
  intros Ht. split.
  { intros ->. exact (tokenize_nonempty _ Ht). }
  split.
  - apply Forall_forall. intros c Hc.
    exact (proj1 (cleaned_token_alnum lower s t c Ht Hc)).
  - intros Hup. apply Forall_forall. intros c Hc.
    destruct (cleaned_token_alnum lower s t c Ht Hc) as [Hal Hin].
    rewrite Forall_forall in Hup. specialize (Hup c Hin).
    unfold is_alnum in Hal. rewrite Hup, orb_false_r in Hal. exact Hal.
Qed.

Lemma cleaned_tokens_alnum_witness :
  py "im" ∈ tokenize (clean_text Str.ascii_lower (py "I'm FINE."))
  /\ Forall (fun c => is_alnum c = true) (py "im").
Proof.
  assert (H : py "im" ∈ tokenize (clean_text Str.ascii_lower (py "I'm FINE.")))
    by (apply list_elem_of_In; left; reflexivity).
  split; [exact H |].
  exact (proj1 (proj2 (cleaned_tokens_alnum Str.ascii_lower _ _ H))).
Defined.

Lemma cut_at_whitespace_app (a b : pystr) (c : char) :
  isspace c = true ->
  cut_at_whitespace (a ++ c :: b) = cut_at_whitespace a ++ cut_at_whitespace b.
Proof.
  intros Hc. induction a as [| x a IH].
  - cbn [app cut_at_whitespace]. rewrite Hc. reflexivity.
  - cbn [app cut_at_whitespace]. rewrite IH.
    destruct (isspace x); [reflexivity |].
    destruct (cut_at_whitespace_cons a) as (w & ws & ->). reflexivity.
Qed.

(** X7.  A whitespace character separates: the tokens of a text are
    those of the part before it followed by those of the part after it.
    A text of whitespace only has no tokens. *)
Theorem tokenize_at_whitespace (a b : pystr) (c : char) :
  isspace c = true ->
  tokenize (a ++ c :: b) = tokenize a ++ tokenize b
  /\ (Forall (fun x => isspace x = true) a -> tokenize a = []).
Proof.
  intros Hc. split.
  - rewrite !tokenize_refines. unfold spec_tokenize.
    rewrite cut_at_whitespace_app by exact Hc. apply filter_app.
  - intros Hall.
    assert (Hcat : concat (tokenize a) = []).
    { rewrite tokenize_concat. induction Hall as [| x a Hx _ IH];
        [reflexivity |].
      rewrite filter_cons. case_decide; [congruence | exact IH]. }
    pose proof (tokenize_nonempty a) as Hne.
    destruct (tokenize a) as [| t ts]; [reflexivity |].
    destruct t as [| x t]; [exfalso; apply Hne; left | discriminate Hcat].
Qed.

Lemma tokenize_at_whitespace_witness :
  isspace 10 = true
  /\ tokenize (py "hi there" ++ 10%N :: py "bye")
     = tokenize (py "hi there") ++ tokenize (py "bye").
Proof.
  split; [reflexivity |].
  exact (proj1 (tokenize_at_whitespace (py "hi there") (py "bye") 10%N
                  eq_refl)).
Defined.

(** X8.  Cleaning a cleaned text again changes nothing, provided
    lower-casing leaves the cleaned text as it is (as [str.lower] does
    with a text of [[a-z0-9]] and whitespace): cell 4 can be run twice. *)
Theorem clean_text_idempotent (lower : pystr -> pystr) (s : pystr) :
  lower (clean_text lower s) = clean_text lower s ->
  clean_text lower (clean_text lower s) = clean_text lower s.
Proof.
  intros Hfix. unfold clean_text at 1. rewrite Hfix.
  rewrite re_sub_delete. rewrite clean_text_filter.
  induction (lower s) as [| c l IH]; [reflexivity |].
  rewrite (filter_cons _ c l). case_decide as Hc; [| exact IH].
  rewrite filter_cons_True by exact Hc. rewrite IH. reflexivity.
Qed.

Lemma clean_text_idempotent_witness :
  Str.ascii_lower (clean_text Str.ascii_lower (py "Hello, World!"))
  = clean_text Str.ascii_lower (py "Hello, World!")
  /\ clean_text Str.ascii_lower (clean_text Str.ascii_lower (py "Hello, World!"))
     = clean_text Str.ascii_lower (py "Hello, World!").
Proof.
  split; [reflexivity |].
  exact (clean_text_idempotent Str.ascii_lower (py "Hello, World!") eq_refl).
Defined.

(** ** The padding loop of cell 7 as a whole *)

Lemma pad_loop_raise (max_length : Z) (mid pre post : list entry)
  (a b : list token) (fuel : nat) :
  Forall is_text_pair mid ->
  (length mid < fuel)%nat ->
  pad_loop max_length fuel (length pre) (pre ++ mid ++ TokenPair a b :: post)
  = Raise (AttributeError "list" "split").
Proof.
  revert pre fuel. induction mid as [| e mid IH]; intros pre fuel Hmid Hfuel;
    (destruct fuel as [| fuel]; [simpl in Hfuel; lia |]).
  - cbn [app pad_loop]. rewrite list_lookup_middle by reflexivity.
    reflexivity.
  - inversion Hmid as [| ? ? He Hrest]; subst.
    destruct e as [x y | x y]; [| destruct He].
    cbn [app pad_loop]. rewrite list_lookup_middle by reflexivity.
    cbn [pad_pair bind]. rewrite insert_at_boundary.
    specialize (IH (pre ++ [TokenPair (pad_sequence (tokenize x) max_length)
                                      (pad_sequence (tokenize y) max_length)])
                   fuel Hrest ltac:(simpl in Hfuel; lia)).
    rewrite length_app in IH. simpl length in IH.
    replace (length pre + 1)%nat with (S (length pre)) in IH by lia.
    rewrite <- app_assoc in IH. exact IH.
Qed.

Lemma not_all_text_split (pairs : list entry) :
  ~ Forall is_text_pair pairs ->
  exists mid a b post,
    pairs = mid ++ TokenPair a b :: post /\ Forall is_text_pair mid.
Proof.
  induction pairs as [| e pairs IH]; intros Hnot;
    [exfalso; apply Hnot; constructor |].
  destruct e as [x y | a b].
  - destruct IH as (mid & a & b & post & -> & Hmid).
    { intros Hall. apply Hnot. constructor; [exact I | exact Hall]. }
    exists (TextPair x y :: mid), a, b, post.
    split; [reflexivity | constructor; [exact I | exact Hmid]].
  - exists [], a, b, pairs. split; [reflexivity | constructor].
Qed.

(** X9.  The loop of cell 7 completes exactly when every element of
    [pairs] is still a pair of texts; it then replaces each element in
    place by its padded token pair, keeping count and order.  As soon as
    one element is already a pair of token lists the loop ends with
    [AttributeError] ('list' object has no attribute 'split'). *)
Theorem cell7_pad_outcome (max_length : Z) (pairs : list entry) :
  (Forall is_text_pair pairs ->
   cell7_pad max_length pairs = Ok (map (pad_entry max_length) pairs)
   /\ length (map (pad_entry max_length) pairs) = length pairs)
  /\ (~ Forall is_text_pair pairs ->
      cell7_pad max_length pairs = Raise (AttributeError "list" "split")).
Proof.
  split.
  - intros Hall. split; [apply cell7_pad_text, Hall | apply length_map].
  - intros Hnot.
    destruct (not_all_text_split pairs Hnot) as (mid & a & b & post & -> & Hmid).
    unfold cell7_pad.
    apply (pad_loop_raise max_length mid [] post a b _ Hmid).
    rewrite length_app. simpl. lia.
Qed.

(** X10.  Cell 7 cannot be run twice: on its own output, unless that is
    empty, the loop raises [AttributeError], whatever [max_length] is
    the second time. *)
Theorem cell7_pad_rerun (max_length max_length' : Z) (pairs out : list entry) :
  cell7_pad max_length pairs = Ok out ->
  (out <> [] ->
   cell7_pad max_length' out = Raise (AttributeError "list" "split"))
  /\ (out = [] -> cell7_pad max_length' out = Ok []).
Proof.
  intros Hrun. apply cell7_pad_Ok in Hrun as [Hall ->]. split.
  - intros Hne. apply cell7_pad_outcome.
    destruct pairs as [| e pairs]; [exfalso; apply Hne; reflexivity |].
    inversion Hall as [| ? ? He _]; subst.
    destruct e as [x y | x y]; [| destruct He].
    intros Hout. inversion Hout as [| ? ? Hhead _]. exact Hhead.
  - intros ->. reflexivity.
Qed.

Lemma cell7_pad_rerun_witness :
  cell7_pad 3 [TextPair (py "hello world") (py "im fine")]
  = Ok [TokenPair [py "hello"; py "world"; PAD] [py "im"; py "fine"; PAD]]
  /\ cell7_pad 3
       [TokenPair [py "hello"; py "world"; PAD] [py "im"; py "fine"; PAD]]
     = Raise (AttributeError "list" "split").
Proof.
  assert (H : cell7_pad 3 [TextPair (py "hello world") (py "im fine")]
              = Ok [TokenPair [py "hello"; py "world"; PAD]
                              [py "im"; py "fine"; PAD]]) by reflexivity.
  split; [exact H |].
  exact (proj1 (cell7_pad_rerun 3 3 _ _ H) ltac:(discriminate)).
Defined.

(** ** The pairs of cell 6 *)

(** X11.  Inside one conversation the pairs form a chain: the response
    of each pair is the input of the next one. *)
Theorem pairs_chain (convo : Conversation) (out : list entry) (i : nat)
  (a b c d : pystr) :
  pair_conversation convo [] = Ok out ->
  out !! i = Some (TextPair a b) ->
  out !! S i = Some (TextPair c d) ->
  b = c.
Proof.
  rewrite pair_conversation_Ok. intros [= <-] H1 H2. simpl in H1, H2.
  apply adjacent_pairs_lookup in H1 as (u1 & u2 & _ & Hu2 & [= -> ->]).
  apply adjacent_pairs_lookup in H2 as (u2' & u3 & Hu2' & _ & [= -> ->]).
  congruence.
Qed.

Lemma pairs_chain_witness :
  pair_conversation
    (mkConversation (py "c")
       [mkUtterance (py "1") (py "a") None; mkUtterance (py "2") (py "b") None;
        mkUtterance (py "3") (py "c") None]) []
  = Ok [TextPair (py "a") (py "b"); TextPair (py "b") (py "c")]
  /\ py "b" = py "b".
Proof.
  assert (H : pair_conversation
                (mkConversation (py "c")
                   [mkUtterance (py "1") (py "a") None;
                    mkUtterance (py "2") (py "b") None;
                    mkUtterance (py "3") (py "c") None]) []
              = Ok [TextPair (py "a") (py "b"); TextPair (py "b") (py "c")])
    by reflexivity.
  split; [exact H |].
  exact (pairs_chain _ _ 0 _ _ _ _ H eq_refl eq_refl).
Defined.

Lemma flat_map_length_sum {A B} (f : A -> list B) (l : list A) :
  length (flat_map f l) = sum_list_with (fun x => length (f x)) l.
Proof.
  induction l as [| x l IH]; [reflexivity |].
  cbn [flat_map sum_list_with]. rewrite length_app, IH. reflexivity.
Qed.

Lemma update_utterances_pair_count (f : Utterance -> Utterance) (corpus : Corpus) :
  sum_list_with (fun convo => length (adjacent_pairs (utterances convo)))
                (update_utterances f corpus)
  = sum_list_with (fun convo => (length (utterances convo) - 1)%nat) corpus.
Proof.
  unfold update_utterances. induction corpus as [| convo corpus IH];
    [reflexivity |].
  cbn [map sum_list_with]. rewrite IH, adjacent_pairs_length. simpl.
  rewrite length_map. reflexivity.
Qed.

(** X12.  For every corpus and every [max_length] the loops of cells 4
    to 7 run without an exception and leave in [pairs] one padded pair
    for each utterance but the first of each conversation: the total is
    the sum of [max(len(utterances) - 1, 0)] over the conversations,
    as many as the loop of cell 6 extracted.  The stored cells, which
    end with [print(pairs[0])], leave the same list when that total is
    not zero; when it is zero, cell 6 ends in [IndexError]. *)
Theorem padded_pairs_count (lower : pystr -> pystr) (max_length : Z)
  (corpus : Corpus) :
  exists out texts,
    padded_pairs lower max_length corpus = Ok out
    /\ cell6_pairs corpus = Ok texts
    /\ length out
       = sum_list_with (fun convo => (length (utterances convo) - 1)%nat) corpus
    /\ length texts = length out
    /\ (length out = O ->
        cell6_stored (cell5_tokenize (cell4_clean lower corpus))
        = Raise IndexError
        /\ cells_4_to_7 lower max_length corpus = Raise IndexError)
    /\ (length out <> O -> cells_4_to_7 lower max_length corpus = Ok out).
Proof.
  destruct (padded_pairs lower max_length corpus) as [out | e] eqn:Hout;
    [| rewrite padded_pairs_Ok in Hout; discriminate Hout].
  pose proof (cells_4_to_7_outcome lower max_length corpus out Hout)
    as [Hnone Hsome].
  pose proof Hout as Hout'. rewrite padded_pairs_Ok in Hout'.
  injection Hout' as Hout'.
  exists out, (flat_map (fun convo => adjacent_pairs (utterances convo)) corpus).
  split; [reflexivity |].
  split; [apply cell6_pairs_Ok |].
  assert (Hlen : length out
                 = sum_list_with
                     (fun convo => (length (utterances convo) - 1)%nat) corpus).
  { rewrite <- Hout', length_map, flat_map_length_sum.
    apply update_utterances_pair_count. }
  split; [exact Hlen |].
  split.
  { rewrite Hlen, flat_map_length_sum.
    clear. induction corpus as [| convo corpus IH]; [reflexivity |].
    cbn [sum_list_with]. rewrite IH, adjacent_pairs_length. reflexivity. }
  split.
  - intros H0. apply length_zero_iff_nil in H0. split; [| exact (Hnone H0)].
    unfold cell6_stored. rewrite cells_4_5, cell6_pairs_Ok. cbn [bind].
    rewrite H0 in Hout'. apply map_eq_nil in Hout'. rewrite Hout'.
    reflexivity.
  - intros Hne. apply Hsome. intros ->. apply Hne. reflexivity.
Qed.

(** ** The two parts of the split *)

Lemma nth_in_range_elem {A} (X : list A) (d : A) (i : Z) :
  0 <= i < Py.len X -> nth (Z.to_nat i) X d ∈ X.
Proof.
  unfold Py.len. intros Hi.
  destruct (X !! Z.to_nat i) as [x |] eqn:Hx.
  - rewrite (nth_lookup_Some _ _ d _ Hx). eapply list_elem_of_lookup_2, Hx.
  - apply lookup_ge_None in Hx. lia.
Qed.

(** X13.  Whenever the split succeeds on two or more pairs, neither part
    is empty, the validation part is not larger than the training part,
    and every element of either part is an element of [pairs]. *)
Theorem split_parts (pairs train val : list entry) (permutation : list Z) :
  permutation ≡ₚ Py.range (Py.len pairs) ->
  2 <= Py.len pairs ->
  Sklearn.train_test_split permutation pairs (1, 5) = Ok (train, val) ->
  train <> [] /\ val <> []
  /\ (length val <= length train)%nat
  /\ forall e, e ∈ train ++ val -> e ∈ pairs.
Proof.
  intros Hperm Hn Hsplit.
  rewrite (train_test_split_Ok pairs (TextPair [] []) permutation Hperm Hn)
    in Hsplit.
  cbv zeta in Hsplit. injection Hsplit as <- <-.
  set (k := Z.to_nat (Sklearn.ceil_fraction (1, 5) (Py.len pairs))).
  assert (Hlen : length permutation = length pairs).
  { rewrite (Permutation_length Hperm). unfold Py.range, Py.len.
    rewrite length_map, length_seq. lia. }
  assert (Hin : Forall (fun i => 0 <= i < Py.len pairs) permutation).
  { apply Forall_forall. intros i Hi. apply range_bounds.
    rewrite <- Hperm. exact Hi. }
  destruct (split_sizes_nat pairs Hn) as (Hk1 & Hk2 & Hk).
  fold k in Hk1, Hk2, Hk.
  pose proof (ceil_fifth (Py.len pairs)) as Hc. cbv zeta in Hc.
  assert (Hltrain : length (map (fun i => nth (Z.to_nat i) pairs (TextPair [] []))
                                (drop k permutation))
                    = (length pairs - k)%nat)
    by (rewrite length_map, length_drop; lia).
  assert (Hlval : length (map (fun i => nth (Z.to_nat i) pairs (TextPair [] []))
                              (take k permutation)) = k)
    by (rewrite length_map, length_take; lia).
  split; [intros H0; rewrite H0 in Hltrain; simpl in Hltrain; lia |].
  split; [intros H0; rewrite H0 in Hlval; simpl in Hlval; lia |].
  split; [rewrite Hltrain, Hlval; unfold Py.len in *; lia |].
  intros e He. rewrite <- map_app in He.
  apply list_elem_of_fmap in He as (i & -> & Hi).
  apply nth_in_range_elem.
  rewrite Forall_forall in Hin. apply Hin.
  apply elem_of_app in Hi as [Hi | Hi].
  - eapply elem_of_sublist; [exact Hi | apply sublist_drop].
  - eapply elem_of_sublist; [exact Hi | apply sublist_take].
Qed.

Lemma split_parts_witness :
  Sklearn.train_test_split [1; 0] [TextPair (py "a") (py "b");
                                   TextPair (py "b") (py "c")] (1, 5)
  = Ok ([TextPair (py "a") (py "b")], [TextPair (py "b") (py "c")])
  /\ [TextPair (py "a") (py "b")] <> [].
Proof.
  assert (Hperm : [1; 0] ≡ₚ Py.range (Py.len [TextPair (py "a") (py "b");
                                              TextPair (py "b") (py "c")])).
  { apply (bool_decide_unpack _). reflexivity. }
  assert (Hsplit : Sklearn.train_test_split [1; 0]
                     [TextPair (py "a") (py "b"); TextPair (py "b") (py "c")]
                     (1, 5)
                   = Ok ([TextPair (py "a") (py "b")],
                         [TextPair (py "b") (py "c")])) by reflexivity.
  split; [exact Hsplit |].
  exact (proj1 (split_parts _ _ _ _ Hperm
                  ltac:(unfold Py.len; simpl; lia) Hsplit)).
Defined.

(** ** The notebook from cell 4 to cell 9 *)

(** X14.  The stored cells 4 to 9, run in order, never reach the end:
    on a corpus that yields no pair the run stops in cell 6 with
    [IndexError] (from [print(pairs[0])]); with exactly one pair it
    stops in cell 8 with [ValueError] (the training set would be
    empty); with two pairs or more it stops in cell 9 with
    [SyntaxError].  In no case is a file written. *)
Theorem run_notebook_outcome (lower : pystr -> pystr) (permutation : list Z)
  (corpus : Corpus) (out : list entry) :
  padded_pairs lower 10 corpus = Ok out ->
  permutation ≡ₚ Py.range (Py.len out) ->
  (Py.len out = 0 ->
   run_notebook lower permutation corpus = Raise IndexError)
  /\ (Py.len out = 1 ->
      run_notebook lower permutation corpus
      = Raise (ValueError "the resulting train set will be empty"))
  /\ (2 <= Py.len out ->
      run_notebook lower permutation corpus
      = Raise (SyntaxError "unmatched ']'"))
  /\ (forall nb, run_notebook lower permutation corpus <> Ok nb).
Proof.
  intros Hout Hperm.
  destruct (cells_4_to_7_outcome lower 10 corpus out Hout) as [Hnone Hsome].
  unfold run_notebook. split; [| split; [| split]].
  - intros Hn. rewrite Hnone; [reflexivity |].
    apply length_zero_iff_nil. unfold Py.len in Hn. lia.
  - intros Hn. rewrite Hsome by (intros ->; discriminate Hn). cbn [bind].
    unfold cell8_split, Sklearn.train_test_split. cbn [nb_pairs].
    rewrite validate_small by lia. reflexivity.
  - intros Hn.
    rewrite Hsome by (intros ->; unfold Py.len in Hn; simpl in Hn; lia).
    cbn [bind]. unfold cell8_split. cbn [nb_pairs].
    rewrite (train_test_split_Ok out (TextPair [] []) permutation Hperm Hn).
    reflexivity.
  - intros nb H.
    apply bind_Ok in H as (pairs & _ & H).
    apply bind_Ok in H as (nb' & _ & H). discriminate H.
Qed.

Lemma run_notebook_outcome_witness :
  padded_pairs Str.ascii_lower 10
    [mkConversation (py "c1") [mkUtterance (py "u1") (py "Hi") None];
     mkConversation (py "c2") [mkUtterance (py "u2") (py "Yo") None]]
  = Ok []
  /\ run_notebook Str.ascii_lower []
       [mkConversation (py "c1") [mkUtterance (py "u1") (py "Hi") None];
        mkConversation (py "c2") [mkUtterance (py "u2") (py "Yo") None]]
     = Raise IndexError.
Proof.
  assert (H : padded_pairs Str.ascii_lower 10
                [mkConversation (py "c1") [mkUtterance (py "u1") (py "Hi") None];
                 mkConversation (py "c2") [mkUtterance (py "u2") (py "Yo") None]]
              = Ok []) by reflexivity.
  split; [exact H |].
  exact (proj1 (run_notebook_outcome Str.ascii_lower [] _ [] H
                  (Permutation_refl _)) eq_refl).
Defined.

(** ** The text of the file *)

Lemma hex_digit_printable (d : N) :
  (d < 16)%N -> is_printable_ascii (Json.hex_digit d) = true.
Proof.
  intros Hd. unfold Json.hex_digit, is_printable_ascii.
  apply in_range_spec. destruct (N.ltb_spec d 10); lia.
Qed.

Lemma hex4_printable (n : N) :
  Forall (fun c => is_printable_ascii c = true) (Json.hex4 n).
Proof.
  unfold Json.hex4.
  repeat constructor; apply hex_digit_printable, N.mod_lt; discriminate.
Qed.

Lemma escape_char_printable (c : char) :
  Forall (fun x => is_printable_ascii x = true) (Json.escape_char c).
Proof.
  unfold Json.escape_char.
  repeat match goal with
         | |- context [if (?a =? ?b)%N then _ else _] =>
             destruct (a =? b)%N; [repeat constructor |]
         end.
  destruct (in_range 32 126 c) eqn:Hplain; [repeat constructor; exact Hplain |].
  destruct (c <? 65536)%N.
  - repeat (constructor; [reflexivity |]). apply hex4_printable.
  - cbv zeta. apply Forall_app. split;
      (repeat (constructor; [reflexivity |])); apply hex4_printable.
Qed.

Lemma encode_printable (v : Json.value) :
  Forall (fun x => is_printable_ascii x = true) (Json.encode v).
Proof.
  induction v as [s | items IH] using value_ind_nested.
  - cbn [Json.encode]. unfold Json.encode_basestring_ascii.
    constructor; [reflexivity |]. apply Forall_app. split;
      [| repeat constructor].
    induction s as [| c s IHs]; [constructor |].
    cbn [flat_map]. apply Forall_app. split;
      [apply escape_char_printable | exact IHs].
  - destruct items as [| x xs]; [repeat constructor |].
    inversion IH as [| ? ? Hx Hxs]; subst. cbn [Json.encode].
    constructor; [reflexivity |]. apply Forall_app. split; [exact Hx |].
    apply Forall_app. split; [| repeat constructor].
    clear -Hxs. induction Hxs as [| y ys Hy _ IHys]; [constructor |].
    cbn [flat_map]. apply Forall_app. split; [| exact IHys].
    repeat (constructor; [reflexivity |]). exact Hy.
Qed.

(** X15.  Whatever the strings in [pairs], the text [json.dump] writes
    is made of the characters [' '..'~'] only: every other character is
    written as an escape, and the file is one line of ASCII. *)
Theorem json_dump_ascii (pairs : list entry) :
  Forall (fun c => is_printable_ascii c = true) (json_dump pairs)
  /\ (10%N ∉ json_dump pairs).
Proof.
  assert (H : Forall (fun c => is_printable_ascii c = true) (json_dump pairs))
    by apply encode_printable.
  split; [exact H |].
  intros Hin. rewrite Forall_forall in H. specialize (H _ Hin).
  discriminate H.
Qed.

(** X16.  Two lists of pairs whose strings are made of Unicode scalar
    values are written as the same text only if they are the same list:
    the file determines [pairs]. *)
Theorem json_dump_injective (pairs pairs' : list entry) :
  Forall (fun e => Forall (Forall (fun c => unicode_scalar c = true))
                          (entry_strings e)) pairs ->
  Forall (fun e => Forall (Forall (fun c => unicode_scalar c = true))
                          (entry_strings e)) pairs' ->
  json_dump pairs = json_dump pairs' ->
  pairs = pairs'.
Proof.
  intros H H' Heq. apply json_of_pairs_inj.
  pose proof (json_dump_loads pairs H) as Hl.
  pose proof (json_dump_loads pairs' H') as Hl'.
  rewrite Heq in Hl. congruence.
Qed.

Lemma json_dump_injective_witness :
  Forall (fun e => Forall (Forall (fun c => unicode_scalar c = true))
                          (entry_strings e))
         [TokenPair [py "hi"; PAD] [py "yo"; PAD]]
  /\ (json_dump [TokenPair [py "hi"; PAD] [py "yo"; PAD]]
      = json_dump [TokenPair [py "hi"; PAD] [py "yo"; PAD]] ->
      [TokenPair [py "hi"; PAD] [py "yo"; PAD]]
      = [TokenPair [py "hi"; PAD] [py "yo"; PAD]]).
Proof.
  assert (H : Forall (fun e => Forall (Forall (fun c => unicode_scalar c = true))
                                      (entry_strings e))
                     [TokenPair [py "hi"; PAD] [py "yo"; PAD]])
    by (repeat constructor).
  split; [exact H |].
  exact (json_dump_injective _ _ H H).
Defined.

(** ** Which exception ends cell 4 *)

Lemma comprehension_stops {A B} (f : A -> result B) (pre post : list A)
  (x : A) (e : exn) :
  Forall (fun y => exists z, f y = Ok z) pre ->
  f x = Raise e ->
  Py.comprehension f (pre ++ x :: post) = Raise e.
Proof.
  intros Hpre Hx. induction Hpre as [| y pre (z & Hy) _ IH].
  - cbn [app Py.comprehension]. rewrite Hx. reflexivity.
  - cbn [app Py.comprehension]. rewrite Hy, IH. reflexivity.
Qed.

(** X17.  Cell 4 ends with the exception of the first text, in the order
    of the loops, that is not a string: the texts before it are cleaned
    without an exception and the texts and conversations after it are
    not looked at. *)
Theorem cell4_first_offender (lower : pystr -> pystr)
  (pre post : list (list pyval)) (before after : list pyval) (v : pyval)
  (e : exn) :
  Forall (Forall is_str) pre ->
  Forall is_str before ->
  clean_text_dyn lower v = Raise e ->
  cell4_dyn lower (pre ++ (before ++ v :: after) :: post) = Raise e.
Proof.
  intros Hpre Hbefore Hv. unfold cell4_dyn. apply comprehension_stops.
  - apply (Forall_impl _ _ _ Hpre). intros convo Hconvo.
    apply comprehension_Ok. apply (Forall_impl _ _ _ Hconvo).
    intros text Htext. apply clean_text_dyn_Ok, Htext.
  - apply comprehension_stops; [| exact Hv].
    apply (Forall_impl _ _ _ Hbefore).
    intros text Htext. apply clean_text_dyn_Ok, Htext.
Qed.

Lemma cell4_first_offender_witness :
  Forall (Forall is_str) [[VStr (py "Hi")]]
  /\ cell4_dyn Str.ascii_lower
       ([[VStr (py "Hi")]]
        ++ ([VStr (py "a")] ++ VNone :: [VBytes [65%N]]) :: [[VInt 3]])
     = Raise (AttributeError "NoneType" "lower").
Proof.
  assert (Hpre : Forall (Forall is_str) [[VStr (py "Hi")]])
    by (repeat constructor).
  split; [exact Hpre |].
  apply (cell4_first_offender Str.ascii_lower _ _ _ _ VNone _ Hpre);
    [repeat constructor | reflexivity].
Defined.

(** ** Texts with nothing to keep *)

(** X19.  An utterance whose lower-cased text holds no letter or digit
    (empty, blank or punctuation only) is not dropped: its cleaned text
    has no tokens, and its side of a pair is [max_length] sentinels. *)
Theorem all_sentinel_side (lower : pystr -> pystr) (s : pystr) (max_length : Z) :
  Forall (fun c => is_alnum c = false) (lower s) ->
  0 <= max_length ->
  tokenize (clean_text lower s) = []
  /\ pad_sequence (tokenize (clean_text lower s)) max_length
     = replicate (Z.to_nat max_length) PAD.
Proof.
  intros Hnone Hm.
  assert (Htok : tokenize (clean_text lower s) = []).
  { destruct (tokenize (clean_text lower s)) as [| t ts] eqn:Ht;
      [reflexivity |].
    assert (Hin : t ∈ tokenize (clean_text lower s)) by (rewrite Ht; left).
    destruct t as [| c t]; [exfalso; exact (tokenize_nonempty _ Hin) |].
    destruct (cleaned_token_alnum lower s (c :: t) c Hin ltac:(left))
      as [Hal Hlow].
    rewrite Forall_forall in Hnone. rewrite (Hnone c Hlow) in Hal.
    discriminate Hal. }
  split; [exact Htok |].
  rewrite Htok, pad_sequence_nonneg by exact Hm.
  simpl. rewrite take_nil. simpl. f_equal. lia.
Qed.

Lemma all_sentinel_side_witness :
  Forall (fun c => is_alnum c = false) (Str.ascii_lower (py "?! ..."))
  /\ pad_sequence (tokenize (clean_text Str.ascii_lower (py "?! ..."))) 2
     = [PAD; PAD].
Proof.
  assert (H : Forall (fun c => is_alnum c = false)
                     (Str.ascii_lower (py "?! ...")))
    by (repeat constructor).
  split; [exact H |].
  exact (proj2 (all_sentinel_side Str.ascii_lower (py "?! ...") 2 H
                  ltac:(lia))).
Defined.

(** ** Whitespace in cleaned texts *)

Lemma filter_filter_implied {A} (P Q : A -> Prop)
  `{!forall x, Decision (P x)} `{!forall x, Decision (Q x)} (l : list A) :
  (forall x, P x -> Q x) -> filter P (filter Q l) = filter P l.
Proof.
  intros HPQ. induction l as [| x l IH]; [reflexivity |].
  rewrite (filter_cons Q), (filter_cons P x l).
  case_decide as HQ.
  - rewrite filter_cons, IH. reflexivity.
  - rewrite IH. case_decide as HP; [exfalso; apply HQ, HPQ, HP | reflexivity].
Qed.

(** X20.  Cleaning deletes characters and nothing else: the cleaned
    text is never longer than the lower-cased one, and it keeps every
    whitespace character of it, in order, so line breaks and runs of
    blanks stay in [utt.text]. *)
Theorem clean_text_keeps_whitespace (lower : pystr -> pystr) (s : pystr) :
  (length (clean_text lower s) <= length (lower s))%nat
  /\ filter (fun c => isspace c = true) (clean_text lower s)
     = filter (fun c => isspace c = true) (lower s).
Proof.
  rewrite clean_text_filter. split; [apply length_filter |].
  apply filter_filter_implied. intros c Hc.
  destruct (cleaning_pattern c) eqn:Hpat; [| reflexivity].
  apply cleaning_pattern_not_space in Hpat. congruence.
Qed.

(** The sizes the notebook's recorded run printed, for its 36122 pairs. *)
Example recorded_split_sizes :
  Sklearn.validate_shuffle_split 36122 (1, 5) = Ok (28897, 7225).
Proof. reflexivity. Qed.
